(** * The authentication service of the contacts backend

    A shallow embedding of [src/services/auth.py] (class [Auth]) together
    with the one query of [src/repository/users.py] it calls, and the
    properties of the token issuers and of the session guard.

    Conventions of the embedding.
    - A Python [dict] with string keys is a [gmap string value].
    - A [datetime] is the number of microseconds since the epoch (its
      resolution); [timegm(dt.utctimetuple())] is the floor division by
      [10^6].  One call happens at one instant: every [datetime.utcnow()]
      of a call reads the same [now].
    - [expires_delta] is a float number of seconds in the source.  The
      embedding covers the whole numbers of seconds, on which [timedelta]
      and the truth value of the float are exact.
    - The clock is no input of a call.  It reads an instant from which
      the default lifetimes (15 minutes, 1 day, 7 days) stay in the range
      of [datetime], which ends with the year 9999; a given
      [expires_delta] need not, and the sum then raises [OverflowError].
    - A raised exception is the [Raise] case of [result]; stateful code
      runs in the monad [M] over the cache and an event log. *)

From Stdlib Require Import ZArith String List Lia.
From stdpp Require Import base option gmap strings pretty list fin_maps.

Local Open Scope string_scope.
Local Open Scope Z_scope.

(** ** Python values, exceptions and results *)

(** The values a claim set holds: what JSON carries, and [datetime]
    objects, which the issuers put under ["iat"] and ["exp"] before the
    claim set is encoded. *)
Inductive value : Type :=
  | VNone
  | VBool (b : bool)
  | VInt (n : Z)
  | VStr (s : string)
  | VDatetime (us : Z).

#[global] Instance value_eq_dec : EqDecision value.
Proof. solve_decision. Defined.

(** The three kinds of [jose.JWTError] ([JWTClaimsError] and
    [ExpiredSignatureError] are subclasses of [JWTError]). *)
Inductive jwt_error : Type :=
  | JWSError
  | JWTClaimsError
  | ExpiredSignatureError.

Inductive exn : Type :=
  | HTTPException (status_code : Z) (detail : string)
  | JWTError (e : jwt_error)
  | KeyError (key : string)
  | ValueError
  | TypeError
  | UnpicklingError
  | OverflowError
  | RequestValidationError.

#[global] Instance jwt_error_eq_dec : EqDecision jwt_error.
Proof. solve_decision. Defined.

#[global] Instance exn_eq_dec : EqDecision exn.
Proof. solve_decision. Defined.

Inductive result (A : Type) : Type :=
  | Ok (a : A)
  | Raise (e : exn).

Arguments Ok {A} a.
Arguments Raise {A} e.

Definition HTTP_401_UNAUTHORIZED : Z := 401.
Definition HTTP_422_UNPROCESSABLE_ENTITY : Z := 422.

(** The error monad of pure code. *)
Definition rbind {A B} (r : result A) (k : A -> result B) : result B :=
  match r with
  | Ok a => k a
  | Raise e => Raise e
  end.

Declare Scope result_scope.
Delimit Scope result_scope with result.
Notation "'let?' x := r 'in' k" := (rbind r (fun x => k))
  (at level 10, x pattern, r at level 100, k at level 200) : result_scope.

(** [d[k]]: a missing key raises [KeyError]. *)
Definition getitem (d : gmap string value) (k : string) : result value :=
  match d !! k with
  | Some v => Ok v
  | None => Raise (KeyError k)
  end.

(** [v == s] for a string literal [s]. *)
Definition eq_str (v : value) (s : string) : bool :=
  match v with
  | VStr s' => String.eqb s' s
  | _ => false
  end.

(** [try: r except ValueError: raise e]. *)
Definition except_ValueError {A} (r : result A) (e : exn) : result A :=
  match r with
  | Raise ValueError => Raise e
  | _ => r
  end.

(** [try: r except JWTError: raise e]. *)
Definition except_JWTError {A} (r : result A) (e : exn) : result A :=
  match r with
  | Raise (JWTError _) => Raise e
  | _ => r
  end.

(** ** Time *)

Definition us_per_second : Z := 1000000.

(** [timedelta(seconds=s)], [timedelta(minutes=m)], [timedelta(days=d)]. *)
Definition timedelta_seconds (s : Z) : Z := s * us_per_second.
Definition timedelta_minutes (m : Z) : Z := m * 60 * us_per_second.
Definition timedelta_days (d : Z) : Z := d * 86400 * us_per_second.

(** [timegm(dt.utctimetuple())]: the whole seconds of a [datetime]. *)
Definition timegm (dt : Z) : Z := dt / us_per_second.

(** [datetime.min] and [datetime.max]: 0001-01-01 00:00:00 and
    9999-12-31 23:59:59.999999. *)
Definition datetime_min : Z := -62135596800000000.
Definition datetime_max : Z := 253402300799999999.

(** [timedelta(seconds=s)] for a number of seconds the caller gives: a
    [timedelta] has 999999999 days at most, either way, and beyond that
    the constructor raises [OverflowError]. *)
Definition timedelta (seconds : Z) : result Z :=
  if (-999999999 <=? seconds / 86400) && (seconds / 86400 <=? 999999999)
  then Ok (timedelta_seconds seconds)
  else Raise OverflowError.

(** [dt + td]: the sum raises [OverflowError] outside the range of
    [datetime]. *)
Definition datetime_add (dt td : Z) : result Z :=
  if (datetime_min <=? dt + td) && (dt + td <=? datetime_max)
  then Ok (dt + td)
  else Raise OverflowError.

(** [now + timedelta(seconds=seconds)] is a [datetime]. *)
Definition representable (now seconds : Z) : Prop :=
  -999999999 <= seconds / 86400 <= 999999999
  /\ datetime_min <= now + timedelta_seconds seconds <= datetime_max.

(** ** Users *)

(** Modelled from the spec: the [User] class of [src/database/models.py]
    is not among the sources.  The fields are those of the spec's data
    model, with the [username] that [src/routes/users.py] reads. *)
Record User : Type := {
  id : Z;
  username : string;
  email : string;
  password : string;
  confirmed : bool;
  refresh_token : option string;
  avatar : option string
}.

#[global] Instance User_eq_dec : EqDecision User.
Proof. solve_decision. Defined.

(** ** What the service takes from its libraries and its configuration *)

Class Env : Type := {
  (** the signature python-jose computes for a header with algorithm
      [alg] and a payload under a key *)
  sign : string -> string -> gmap string value -> string;
  (** Python's [int] on a string, [None] where it raises [ValueError] *)
  int_of_str : string -> option Z;
  (** [pickle.dumps] and [pickle.loads] on users; [None] where
      [pickle.loads] raises *)
  bytes : Type;
  pickle_dumps : User -> bytes;
  pickle_loads : bytes -> option User;
  (** [settings.secret_key_jwt] and [settings.algorithm] *)
  SECRET_KEY : string;
  ALGORITHM : string
}.

(** A small environment to run the service on concrete inputs: the
    configuration of [src/conf/config.py], a keyed digest that reads the
    whole payload, decimal numerals, and the user itself as its snapshot. *)
Definition digit_of (c : Ascii.ascii) : option Z :=
  let n := Z.of_N (Ascii.N_of_ascii c) in
  if (48 <=? n) && (n <=? 57) then Some (n - 48) else None.

Fixpoint decimal (s : string) (acc : Z) : option Z :=
  match s with
  | EmptyString => Some acc
  | String c s' =>
      match digit_of c with
      | Some d => decimal s' (10 * acc + d)
      | None => None
      end
  end.

Definition show_value (v : value) : string :=
  match v with
  | VNone => "null"
  | VBool b => if b then "true" else "false"
  | VInt n => pretty n
  | VStr s => s
  | VDatetime us => pretty us
  end.

Definition demo_sign (key alg : string) (payload : gmap string value) : string :=
  foldr (fun kv acc => kv.1 +:+ "=" +:+ show_value kv.2 +:+ ";" +:+ acc)
        (alg +:+ "/" +:+ key) (map_to_list payload).

Definition demo_env : Env := {|
  sign := demo_sign;
  int_of_str := fun s => match s with EmptyString => None | _ => decimal s 0 end;
  bytes := User;
  pickle_dumps := fun u => u;
  pickle_loads := fun b => Some b;
  SECRET_KEY := "secret_key";
  ALGORITHM := "HS256"
|}.

(** ** python-jose, as far as the service relies on it *)

Module jwt.

(** A token string, seen through the parser of [jws._load]: either it is
    not three base64url segments holding a JSON header naming an
    algorithm and a JSON object, or it is. *)
Inductive token : Type :=
  | Malformed (s : string)
  | Jws (alg : string) (payload : gmap string value) (signature : string).

Definition json_serializable (v : value) : bool :=
  match v with
  | VDatetime _ => false
  | _ => true
  end.

Section with_env.
Context `{Env}.

(** [jwt.encode] turns a [datetime] under ["exp"], ["iat"] or ["nbf"]
    into whole seconds. *)
Definition convert_time_claim (time_claim : string) (claims : gmap string value)
    : gmap string value :=
  match claims !! time_claim with
  | Some (VDatetime dt) => <[time_claim := VInt (timegm dt)]> claims
  | _ => claims
  end.

(** [jwt.encode(claims, key, algorithm=algorithm)].  [json.dumps] raises
    [TypeError] on a [datetime] left in the claim set. *)
Definition encode (claims : gmap string value) (key algorithm : string)
    : result token :=
  let claims :=
    convert_time_claim "nbf"
      (convert_time_claim "iat" (convert_time_claim "exp" claims)) in
  if bool_decide (map_Forall (fun _ v => json_serializable v = true) claims)
  then Ok (Jws algorithm claims (sign key algorithm claims))
  else Raise TypeError.

(** [jws.verify]: the algorithm of the header is one of [algorithms] and
    the signature is the one the key gives. *)
Definition verify (t : token) (key : string) (algorithms : list string)
    : result (gmap string value) :=
  match t with
  | Malformed _ => Raise (JWTError JWSError)
  | Jws alg payload signature =>
      if bool_decide (alg ∈ algorithms)
         && String.eqb signature (sign key alg payload)
      then Ok payload
      else Raise (JWTError JWSError)
  end.

(** [int(v)] *)
Definition py_int (v : value) : result Z :=
  match v with
  | VInt n => Ok n
  | VBool b => Ok (if b then 1 else 0)
  | VStr s =>
      match int_of_str s with
      | Some n => Ok n
      | None => Raise ValueError
      end
  | VNone | VDatetime _ => Raise TypeError
  end.

Definition validate_iat (claims : gmap string value) : result unit :=
  match claims !! "iat" with
  | None => Ok tt
  | Some v =>
      (let? _ := except_ValueError (py_int v) (JWTError JWTClaimsError) in
       Ok tt)%result
  end.

Definition validate_nbf (claims : gmap string value) (now : Z) : result unit :=
  match claims !! "nbf" with
  | None => Ok tt
  | Some v =>
      (let? nbf := except_ValueError (py_int v) (JWTError JWTClaimsError) in
       if timegm now <? nbf then Raise (JWTError JWTClaimsError) else Ok tt)%result
  end.

(** The token is expired when its ["exp"] is before the current whole
    second (no leeway). *)
Definition validate_exp (claims : gmap string value) (now : Z) : result unit :=
  match claims !! "exp" with
  | None => Ok tt
  | Some v =>
      (let? exp := except_ValueError (py_int v) (JWTError JWTClaimsError) in
       if exp <? timegm now then Raise (JWTError ExpiredSignatureError) else Ok tt)%result
  end.

(** No audience is passed to [jwt.decode], so a token that names one is
    refused. *)
Definition validate_aud (claims : gmap string value) : result unit :=
  match claims !! "aud" with
  | None => Ok tt
  | Some _ => Raise (JWTError JWTClaimsError)
  end.

Definition validate_sub (claims : gmap string value) : result unit :=
  match claims !! "sub" with
  | None | Some (VStr _) => Ok tt
  | Some _ => Raise (JWTError JWTClaimsError)
  end.

Definition validate_jti (claims : gmap string value) : result unit :=
  match claims !! "jti" with
  | None | Some (VStr _) => Ok tt
  | Some _ => Raise (JWTError JWTClaimsError)
  end.

(** No access token is passed to [jwt.decode] to compare with. *)
Definition validate_at_hash (claims : gmap string value) : result unit :=
  match claims !! "at_hash" with
  | None => Ok tt
  | Some _ => Raise (JWTError JWTClaimsError)
  end.

Definition validate_claims (claims : gmap string value) (now : Z) : result unit :=
  (let? _ := validate_iat claims in
   let? _ := validate_nbf claims now in
   let? _ := validate_exp claims now in
   let? _ := validate_aud claims in
   let? _ := validate_sub claims in
   let? _ := validate_jti claims in
   validate_at_hash claims)%result.

(** [jwt.decode(token, key, algorithms=algorithms)] at the instant [now]. *)
Definition decode (t : token) (key : string) (algorithms : list string) (now : Z)
    : result (gmap string value) :=
  (let? payload := verify t key algorithms in
   let? _ := validate_claims payload now in
   Ok payload)%result.

End with_env.
End jwt.

(** ** The persistence store *)

(** A [Session] is the rows of the users table, in the order in which a
    query returns them. *)
Definition Session : Type := list User.

Module repository_users.

(** [db.query(User).filter(User.email == email).first()] *)
Definition get_user_by_email (email_ : value) (db : Session) : option User :=
  List.find (fun u => eq_str email_ (email u)) db.

End repository_users.

(** ** The cache and the monad of stateful code *)

Section service.
Context `{Env}.

(** A Redis key holds a value and, when [EXPIRE] was called on it, the
    instant at which it is gone. *)
Record entry : Type := {
  data : bytes;
  expire_at : option Z
}.

Inductive printed : Type :=
  | Text (s : string)
  | Exc (e : exn).

Inductive event : Type :=
  | RedisGet (key : string)
  | RedisSet (key : string) (v : bytes)
  | RedisExpire (key : string) (seconds : Z)
  | DbQuery (email_ : value)
  | Print (p : printed).

Record world : Type := {
  redis : gmap string entry;
  log : list event
}.

Definition M (A : Type) : Type := world -> result A * world.

Definition ret {A} (a : A) : M A := fun w => (Ok a, w).

Definition raise {A} (e : exn) : M A := fun w => (Raise e, w).

Definition bind {A B} (m : M A) (k : A -> M B) : M B :=
  fun w =>
    match m w with
    | (Ok a, w') => k a w'
    | (Raise e, w') => (Raise e, w')
    end.

Definition lift {A} (r : result A) : M A := fun w => (r, w).

Definition emit (ev : event) : M unit :=
  fun w => (Ok tt, {| redis := redis w; log := log w ++ [ev] |}).

Declare Scope M_scope.
Delimit Scope M_scope with M.
Notation "x <- m ;; k" := (bind m (fun x => k))
  (at level 100, m at next level, right associativity) : M_scope.
Notation "m ;; k" := (bind m (fun _ => k))
  (at level 100, right associativity) : M_scope.

Definition print (s : string) : M unit := emit (Print (Text s)).

(** The value a key holds at the instant [now]. *)
Definition live (r : gmap string entry) (key : string) (now : Z) : option entry :=
  match r !! key with
  | Some e =>
      match expire_at e with
      | Some t => if t <=? now then None else Some e
      | None => Some e
      end
  | None => None
  end.

(** [self.redis.get(key)] *)
Definition redis_get (key : string) (now : Z) : M (option bytes) :=
  fun w =>
    (Ok (data <$> live (redis w) key now),
     {| redis := redis w; log := log w ++ [RedisGet key] |}).

(** [self.redis.set(key, v)]: [SET] stores the value without a time to
    live and answers [True]. *)
Definition redis_set (key : string) (v : bytes) : M bool :=
  fun w =>
    (Ok true,
     {| redis := <[key := {| data := v; expire_at := None |}]> (redis w);
        log := log w ++ [RedisSet key v] |}).

(** [self.redis.expire(key, seconds)]: [EXPIRE] answers whether the key
    exists. *)
Definition redis_expire (key : string) (seconds : Z) (now : Z) : M bool :=
  fun w =>
    match live (redis w) key now with
    | Some e =>
        (Ok true,
         {| redis := <[key := {| data := data e;
                                 expire_at := Some (now + timedelta_seconds seconds) |}]>
                       (redis w);
            log := log w ++ [RedisExpire key seconds] |})
    | None =>
        (Ok false,
         {| redis := redis w; log := log w ++ [RedisExpire key seconds] |})
    end.

(** What [await] is applied to: the coroutine a call of an [async def]
    returns, which runs when awaited, or a plain value, which is what the
    methods of the synchronous client [redis.Redis] return. *)
Inductive awaitable (A : Type) : Type :=
  | Coroutine (c : M A)
  | Plain (a : A).

Arguments Coroutine {A} c.
Arguments Plain {A} a.

(** [await o]: a plain value cannot be awaited. *)
Definition await {A} (o : awaitable A) : M A :=
  match o with
  | Coroutine c => c
  | Plain _ => raise TypeError
  end.

(** The call [repository_users.get_user_by_email(email, db)] of the
    [async def]. *)
Definition get_user_by_email (email_ : value) (db : Session)
    : awaitable (option User) :=
  Coroutine (emit (DbQuery email_);;
             ret (repository_users.get_user_by_email email_ db))%M.

(** [str(v)], as the f-string [f"user:{email}"] applies it. *)
Definition py_str (v : value) : string :=
  match v with
  | VStr s => s
  | VNone => "None"
  | VBool b => if b then "True" else "False"
  | VInt n => pretty n
  | VDatetime us => pretty us
  end.

(** ** The service: class [Auth] *)

(** The truth value of a float, as [if expires_delta:] takes it. *)
Definition truthy (seconds : Z) : bool := negb (seconds =? 0).

(** [d.update({k1: v1, ...})] on a copy of [d]. *)
Definition update (d : gmap string value) (kvs : list (string * value))
    : gmap string value :=
  foldl (fun acc kv => <[kv.1 := kv.2]> acc) d kvs.

(** A given [expires_delta] can take the expiry out of the range of
    [datetime]: the sum then raises [OverflowError].  A default lifetime
    cannot, the clock being what it is (see the conventions above). *)
Definition create_access_token (data : gmap string value)
    (expires_delta : option Z) (now : Z) : result jwt.token :=
  let to_encode := data in
  (let? expire :=
     match expires_delta with
     | Some seconds =>
         if truthy seconds
         then (let? delta := timedelta seconds in datetime_add now delta)
         else Ok (now + timedelta_minutes 15)
     | None => Ok (now + timedelta_minutes 15)
     end in
   let to_encode :=
     update to_encode
       [("iat", VDatetime now); ("exp", VDatetime expire);
        ("scope", VStr "access_token")] in
   jwt.encode to_encode SECRET_KEY ALGORITHM)%result.

Definition create_refresh_token (data : gmap string value)
    (expires_delta : option Z) (now : Z) : result jwt.token :=
  let to_encode := data in
  (let? expire :=
     match expires_delta with
     | Some seconds =>
         if truthy seconds
         then (let? delta := timedelta seconds in datetime_add now delta)
         else Ok (now + timedelta_days 7)
     | None => Ok (now + timedelta_days 7)
     end in
   let to_encode :=
     update to_encode
       [("iat", VDatetime now); ("exp", VDatetime expire);
        ("scope", VStr "refresh_token")] in
   jwt.encode to_encode SECRET_KEY ALGORITHM)%result.

Definition create_email_token (data : gmap string value) (now : Z)
    : result jwt.token :=
  let to_encode := data in
  let expire := now + timedelta_days 1 in
  let to_encode :=
    update to_encode
      [("iat", VDatetime now); ("exp", VDatetime expire);
       ("scope", VStr "email_token")] in
  jwt.encode to_encode SECRET_KEY ALGORITHM.

Definition decode_refresh_token (refresh_token_ : jwt.token) (now : Z)
    : result value :=
  except_JWTError
    (let? payload := jwt.decode refresh_token_ SECRET_KEY [ALGORITHM] now in
     let? scope := getitem payload "scope" in
     if eq_str scope "refresh_token" then
       let? email_ := getitem payload "sub" in
       Ok email_
     else
       Raise (HTTPException HTTP_401_UNAUTHORIZED "Invalid scope for token"))%result
    (HTTPException HTTP_401_UNAUTHORIZED "Could not validate credentials").

Definition credentials_exception : exn :=
  HTTPException HTTP_401_UNAUTHORIZED "Could not validate credentials".

(** The [try] block of [get_current_user]: from the token to the email. *)
Definition current_email (token : jwt.token) (now : Z) : result value :=
  except_JWTError
    (let? payload := jwt.decode token SECRET_KEY [ALGORITHM] now in
     let? scope := getitem payload "scope" in
     if eq_str scope "access_token" then
       let? email_ := getitem payload "sub" in
       match email_ with
       | VNone => Raise credentials_exception
       | _ => Ok email_
       end
     else
       Raise credentials_exception)%result
    credentials_exception.

Definition get_current_user (token : jwt.token) (db : Session) (now : Z)
    : M User :=
  (email_ <- lift (current_email token now);;
   let key := "user:" +:+ py_str email_ in
   user_data <- redis_get key now;;
   match user_data with
   | None =>
       print "Get user from Postgres";;
       user <- await (get_user_by_email email_ db);;
       match user with
       | None => raise credentials_exception
       | Some user =>
           let user_data := pickle_dumps user in
           set_reply <- redis_set key user_data;;
           await (Plain set_reply);;
           expire_reply <- redis_expire key 900 now;;
           await (Plain expire_reply);;
           ret user
       end
   | Some user_data =>
       print "Get user from Cache";;
       match pickle_loads user_data with
       | Some user => ret user
       | None => raise UnpicklingError
       end
   end)%M.

Definition get_email_from_token (token : jwt.token) (now : Z) : M value :=
  match
    (let? payload := jwt.decode token SECRET_KEY [ALGORITHM] now in
     let? scope := getitem payload "scope" in
     if eq_str scope "email_token" then
       let? email_ := getitem payload "sub" in
       Ok email_
     else
       Raise (HTTPException HTTP_401_UNAUTHORIZED "Invalid scope for token"))%result
  with
  | Raise (JWTError e) =>
      (emit (Print (Exc (JWTError e)));;
       raise (HTTPException HTTP_422_UNPROCESSABLE_ENTITY
                "Invalid token for email verification"))%M
  | r => lift r
  end.

(** ** The notions the properties are stated with *)

(** A token is a valid access token for [email_] at [now]: its signature
    and registered claims pass [jwt.decode], its scope is
    ["access_token"] and its subject is [email_]. *)
Definition valid_access_token (token : jwt.token) (now : Z) (email_ : string)
    : Prop :=
  exists payload,
    jwt.decode token SECRET_KEY [ALGORITHM] now = Ok payload
    /\ payload !! "scope" = Some (VStr "access_token")
    /\ payload !! "sub" = Some (VStr email_).

(** The cache key of a user. *)
Definition cache_key (email_ : string) : string := "user:" +:+ email_.

(** The payload of an issued token: the caller's claims with the three
    claims of the issuer over them, the instants in whole seconds. *)
Definition issued_payload (data : gmap string value) (now expire : Z)
    (scope : string) : gmap string value :=
  <["scope" := VStr scope]>
    (<["exp" := VInt (timegm expire)]> (<["iat" := VInt (timegm now)]> data)).

(** An issuer returns a token signed with the configured key and
    algorithm whose payload holds the given instants, in whole seconds,
    and the given scope, and every other claim of the caller's [data] as
    it is there, and nothing else. *)
Definition issues (data : gmap string value) (r : result jwt.token)
    (iat exp : Z) (scope : string) : Prop :=
  exists payload,
    r = Ok (jwt.Jws ALGORITHM payload (sign SECRET_KEY ALGORITHM payload))
    /\ payload !! "iat" = Some (VInt iat)
    /\ payload !! "exp" = Some (VInt exp)
    /\ payload !! "scope" = Some (VStr scope)
    /\ forall k, k <> "iat" -> k <> "exp" -> k <> "scope" ->
                 payload !! k = data !! k.

(** A claim set the issuers can sign and [jwt.decode] accepts: its values
    are what JSON carries, and the registered claims the issuers leave as
    they are pass the checks of [jwt.decode]. *)
Definition valid_claim_set (data : gmap string value) (now : Z) : Prop :=
  map_Forall (fun _ v => jwt.json_serializable v = true) data
  /\ jwt.validate_nbf data now = Ok tt
  /\ jwt.validate_aud data = Ok tt
  /\ jwt.validate_jti data = Ok tt
  /\ jwt.validate_at_hash data = Ok tt.

(** Every entry under the key of an email is the snapshot of a user with
    that email. *)
Definition cache_sound (r : gmap string entry) : Prop :=
  forall email_ ent user,
    r !! cache_key email_ = Some ent ->
    pickle_loads (data ent) = Some user ->
    email user = email_.

End service.

(** ** The users repository: the functions that change a row *)

(** The [AttributeError] of an attribute access on [None]. *)
Inductive attribute_error : Type :=
  | AttributeError (object_type attribute : string).

Definition set_confirmed (b : bool) (u : User) : User :=
  {| id := id u; username := username u; email := email u;
     password := password u; confirmed := b;
     refresh_token := refresh_token u; avatar := avatar u |}.

Definition set_avatar (url : option string) (u : User) : User :=
  {| id := id u; username := username u; email := email u;
     password := password u; confirmed := confirmed u;
     refresh_token := refresh_token u; avatar := url |}.

Module users.

(** The object [get_user_by_email] returns is the row itself: its
    position among the rows comes with it, so that an assignment to one
    of its attributes, once committed, changes that row. *)
Definition first_by_email (email_ : string) (db : Session) : option (nat * User) :=
  list_find (fun u => eq_str (VStr email_) (email u) = true) db.

(** [confirmed_email(email, db)]: [user.confirmed = True] on what
    [get_user_by_email] returned, then [db.commit()].  The result is the
    table afterwards. *)
Definition confirmed_email (email_ : string) (db : Session)
    : attribute_error + Session :=
  match first_by_email email_ db with
  | None => inl (AttributeError "NoneType" "confirmed")
  | Some (i, user) => inr (<[i := set_confirmed true user]> db)
  end.

(** [update_avatar(email, url, db)]: [user.avatar = url], commit, refresh,
    and the user is returned. *)
Definition update_avatar (email_ : string) (url : option string) (db : Session)
    : attribute_error + (User * Session) :=
  match first_by_email email_ db with
  | None => inl (AttributeError "NoneType" "avatar")
  | Some (i, user) =>
      let user := set_avatar url user in
      inr (user, <[i := user]> db)
  end.

End users.

(** ** Contacts *)

(** A [date]: the birth date of a contact, and today. *)
Record date : Type := {
  year : Z;
  month : Z;
  day : Z
}.

(** The [ContactModel] schema of [src/schemas.py] and the [Contact] class
    of [src/database/models.py] are not among the sources: the fields are
    the ones [src/repository/contacts.py] reads and assigns. *)
Module ContactModel.
Record t : Type := {
  first_name : string;
  last_name : string;
  email : string;
  phone_number : string;
  birth_date : date
}.
End ContactModel.

Module Contact.
Record t : Type := {
  id : Z;
  first_name : string;
  last_name : string;
  email : string;
  phone_number : string;
  birth_date : date;
  user_id : Z
}.
End Contact.

(** The calendar of [datetime]: [d + timedelta(days=n)]. *)
Definition is_leap (y : Z) : bool :=
  ((y mod 4 =? 0) && negb (y mod 100 =? 0)) || (y mod 400 =? 0).

Definition days_in_month (y m : Z) : Z :=
  if m =? 2 then (if is_leap y then 29 else 28)
  else if (m =? 4) || (m =? 6) || (m =? 9) || (m =? 11) then 30
  else 31.

Definition next_day (d : date) : date :=
  if day d <? days_in_month (year d) (month d)
  then {| year := year d; month := month d; day := day d + 1 |}
  else if month d <? 12
  then {| year := year d; month := month d + 1; day := 1 |}
  else {| year := year d + 1; month := 1; day := 1 |}.

Definition plus_days (n : nat) (d : date) : date := Nat.iter n next_day d.

(** A date of the calendar. *)
Definition valid_date (d : date) : Prop :=
  1 <= month d <= 12 /\ 1 <= day d <= days_in_month (year d) (month d).

(** The first day of the month after that of [d]. *)
Definition next_month (d : date) : date :=
  if month d <? 12
  then {| year := year d; month := month d + 1; day := 1 |}
  else {| year := year d + 1; month := 1; day := 1 |}.

Module repository_contacts.

(** The rows of the contacts table, in the order in which a query returns
    them. *)
Abbreviation table := (list Contact.t).

Definition owned_by (current_user : User) (c : Contact.t) : Prop :=
  Contact.user_id c = id current_user.

#[global] Instance owned_by_dec current_user c : Decision (owned_by current_user c).
Proof. unfold owned_by. apply _. Defined.

(** [create_contact(body, current_user, db)].  [new_id] is the primary key
    the database gives the row at [db.commit()], which [db.refresh] reads
    back. *)
Definition create_contact (body : ContactModel.t) (current_user : User)
    (new_id : Z) (db : table) : Contact.t * table :=
  let new_contact :=
    {| Contact.id := new_id;
       Contact.first_name := ContactModel.first_name body;
       Contact.last_name := ContactModel.last_name body;
       Contact.email := ContactModel.email body;
       Contact.phone_number := ContactModel.phone_number body;
       Contact.birth_date := ContactModel.birth_date body;
       Contact.user_id := id current_user |} in
  (new_contact, (db ++ [new_contact])%list).

(** [get_contacts(limit, offset, current_user, db)]: [LIMIT limit OFFSET
    offset] over the rows of the user.  A negative [limit] or [offset] is
    an error of the database and is not covered. *)
Definition get_contacts (limit offset : nat) (current_user : User) (db : table)
    : list Contact.t :=
  take limit (drop offset (filter (owned_by current_user) db)).

(** The row [filter_by(id=contact_id, user_id=current_user.id).first()]
    returns, with its position. *)
Definition first_by_id (contact_id : Z) (current_user : User) (db : table)
    : option (nat * Contact.t) :=
  list_find (fun c => Contact.id c = contact_id /\ owned_by current_user c) db.

(** [get_contact_by_id(contact_id, current_user, db)]; the line it prints
    is left out. *)
Definition get_contact_by_id (contact_id : Z) (current_user : User) (db : table)
    : option Contact.t :=
  snd <$> first_by_id contact_id current_user db.

(** [update_contact(body, contact_id, current_user, db)]: the five fields
    of the body are assigned to the contact found and committed. *)
Definition update_contact (body : ContactModel.t) (contact_id : Z)
    (current_user : User) (db : table) : option Contact.t * table :=
  match first_by_id contact_id current_user db with
  | Some (i, contact) =>
      let contact :=
        {| Contact.id := Contact.id contact;
           Contact.first_name := ContactModel.first_name body;
           Contact.last_name := ContactModel.last_name body;
           Contact.email := ContactModel.email body;
           Contact.phone_number := ContactModel.phone_number body;
           Contact.birth_date := ContactModel.birth_date body;
           Contact.user_id := Contact.user_id contact |} in
      (Some contact, <[i := contact]> db)
  | None => (None, db)
  end.

(** [remove_contact(contact_id, current_user, db)] *)
Definition remove_contact (contact_id : Z) (current_user : User) (db : table)
    : option Contact.t * table :=
  match first_by_id contact_id current_user db with
  | Some (i, contact) => (Some contact, delete i db)
  | None => (None, db)
  end.

Section search.
(** [column.ilike(pattern)] of the database on a pattern and a text. *)
Variable ilike : string -> string -> bool.

(** [search_contacts(query, current_user, db)] *)
Definition search_contacts (query : string) (current_user : User) (db : table)
    : list Contact.t :=
  let pattern := "%" +:+ query +:+ "%" in
  filter
    (fun c =>
       owned_by current_user c
       /\ (ilike pattern (Contact.first_name c) = true
           \/ ilike pattern (Contact.last_name c) = true
           \/ ilike pattern (Contact.email c) = true))
    db.
End search.

(** [get_contacts_birthdays(current_user, db)] when [datetime.today()] is
    [today]. *)
Definition get_contacts_birthdays (today : date) (current_user : User) (db : table)
    : list Contact.t :=
  let today_month := month today in
  let today_day := day today in
  let future_date_month := month (plus_days 7 today) in
  let future_date_day := day (plus_days 7 today) in
  filter
    (fun c =>
       owned_by current_user c
       /\ ((month (Contact.birth_date c) = today_month
            /\ today_day <= day (Contact.birth_date c))
           \/ (month (Contact.birth_date c) = future_date_month
               /\ day (Contact.birth_date c) <= future_date_day)))
    db.

End repository_contacts.

(** The contact [update_contact] writes: the body over the contact, whose
    id and owner stay. *)
Definition updated (body : ContactModel.t) (c : Contact.t) : Contact.t :=
  {| Contact.id := Contact.id c;
     Contact.first_name := ContactModel.first_name body;
     Contact.last_name := ContactModel.last_name body;
     Contact.email := ContactModel.email body;
     Contact.phone_number := ContactModel.phone_number body;
     Contact.birth_date := ContactModel.birth_date body;
     Contact.user_id := Contact.user_id c |}.

(** ** The contacts routes *)

Definition HTTP_404_NOT_FOUND : Z := 404.

(** The handlers of [src/routes/contacts.py] that answer 404, given the
    [current_user] the dependency resolved.  [contact_id: int = Path(ge=1)]
    is checked before the body runs: an id below 1 gets
    [RequestValidationError], which is answered 422. *)
Module routes_contacts.

Definition path_ge_1 (contact_id : Z) : result Z :=
  if 1 <=? contact_id then Ok contact_id else Raise RequestValidationError.

Definition get_contact_by_id (contact_id : Z) (current_user : User)
    (db : repository_contacts.table) : result Contact.t :=
  (let? contact_id := path_ge_1 contact_id in
   match repository_contacts.get_contact_by_id contact_id current_user db with
   | None => Raise (HTTPException HTTP_404_NOT_FOUND "Not found")
   | Some contact => Ok contact
   end)%result.

Definition update_contact (body : ContactModel.t) (contact_id : Z)
    (current_user : User) (db : repository_contacts.table)
    : result Contact.t * repository_contacts.table :=
  match path_ge_1 contact_id with
  | Raise e => (Raise e, db)
  | Ok contact_id =>
      match repository_contacts.update_contact body contact_id current_user db with
      | (None, db') => (Raise (HTTPException HTTP_404_NOT_FOUND "Not found"), db')
      | (Some contact, db') => (Ok contact, db')
      end
  end.

Definition remove_contact (contact_id : Z) (current_user : User)
    (db : repository_contacts.table)
    : result Contact.t * repository_contacts.table :=
  match path_ge_1 contact_id with
  | Raise e => (Raise e, db)
  | Ok contact_id =>
      match repository_contacts.remove_contact contact_id current_user db with
      | (None, db') => (Raise (HTTPException HTTP_404_NOT_FOUND "Not found"), db')
      | (Some contact, db') => (Ok contact, db')
      end
  end.

End routes_contacts.

(** ** Inputs for the concrete runs *)

Definition alice : User := {|
  id := 1;
  username := "alice";
  email := "a@example.com";
  password := "$2b$12$hash";
  confirmed := false;
  refresh_token := None;
  avatar := None
|}.

(** The same row after [confirmed_email] and [update_avatar]. *)
Definition alice_later : User := {|
  id := 1;
  username := "alice";
  email := "a@example.com";
  password := "$2b$12$hash";
  confirmed := true;
  refresh_token := None;
  avatar := Some "https://example.com/avatar.jpg"
|}.

Definition claims_of_alice : gmap string value :=
  {[ "sub" := VStr "a@example.com" ]}.

(** 2023-11-14 22:13:20.250000 UTC *)
Definition t0 : Z := 1700000000250000.

(** A token signed for [demo_env] with the given payload. *)
Definition signed (payload : gmap string value) : jwt.token :=
  jwt.Jws "HS256" payload (demo_sign "secret_key" "HS256" payload).

Definition access_token_of_alice : jwt.token :=
  signed {[ "sub" := VStr "a@example.com"; "iat" := VInt 1700000000;
            "exp" := VInt 1700000900; "scope" := VStr "access_token" ]}.

Definition refresh_token_of_alice : jwt.token :=
  signed {[ "sub" := VStr "a@example.com"; "iat" := VInt 1700000000;
            "exp" := VInt 1700604800; "scope" := VStr "refresh_token" ]}.

Definition email_token_of_alice : jwt.token :=
  signed {[ "sub" := VStr "a@example.com"; "iat" := VInt 1700000000;
            "exp" := VInt 1700086400; "scope" := VStr "email_token" ]}.

Definition token_without_sub : jwt.token :=
  signed {[ "iat" := VInt 1700000000; "exp" := VInt 1700000900;
            "scope" := VStr "access_token" ]}.

Definition token_without_scope : jwt.token :=
  signed {[ "sub" := VStr "a@example.com"; "iat" := VInt 1700000000;
            "exp" := VInt 1700000900 ]}.

Definition expired_token : jwt.token :=
  signed {[ "sub" := VStr "a@example.com"; "iat" := VInt 1699990000;
            "exp" := VInt 1699999999; "scope" := VStr "access_token" ]}.

(** The cache before the first request of alice, and after it. *)
Definition cold_cache : @world demo_env := {| redis := ∅; log := [] |}.

Definition warm_cache : @world demo_env := {|
  redis := {[ "user:a@example.com" :=
                @Build_entry demo_env (@pickle_dumps demo_env alice) None ]};
  log := []
|}.

(** A second user, the users table, and a token whose signature was made
    with another key. *)
Definition bob : User := {|
  id := 2;
  username := "bob";
  email := "b@example.com";
  password := "$2b$12$other";
  confirmed := true;
  refresh_token := None;
  avatar := None
|}.

Definition users_table : Session := [alice; bob].

(** The claims of alice with an audience. *)
Definition claims_with_audience : gmap string value :=
  {[ "sub" := VStr "a@example.com"; "aud" := VStr "contacts" ]}.

Definition forged_token : jwt.token :=
  jwt.Jws "HS256"
    {[ "sub" := VStr "a@example.com"; "iat" := VInt 1700000000;
       "exp" := VInt 1700000900; "scope" := VStr "access_token" ]}
    (demo_sign "guessed_key" "HS256"
       {[ "sub" := VStr "a@example.com"; "iat" := VInt 1700000000;
          "exp" := VInt 1700000900; "scope" := VStr "access_token" ]}).

(** Two contacts of alice, one of bob, and the body of a request. *)
Definition carol : Contact.t := {|
  Contact.id := 1;
  Contact.first_name := "Carol";
  Contact.last_name := "Jones";
  Contact.email := "carol@example.com";
  Contact.phone_number := "1234567890";
  Contact.birth_date := {| year := 1990; month := 3; day := 1 |};
  Contact.user_id := 1
|}.

Definition dave : Contact.t := {|
  Contact.id := 2;
  Contact.first_name := "Dave";
  Contact.last_name := "Smith";
  Contact.email := "dave@example.com";
  Contact.phone_number := "9876543210";
  Contact.birth_date := {| year := 1985; month := 3; day := 28 |};
  Contact.user_id := 1
|}.

Definition erin : Contact.t := {|
  Contact.id := 3;
  Contact.first_name := "Erin";
  Contact.last_name := "Doe";
  Contact.email := "erin@example.com";
  Contact.phone_number := "5550001111";
  Contact.birth_date := {| year := 2000; month := 4; day := 2 |};
  Contact.user_id := 2
|}.

Definition contacts_table : list Contact.t := [carol; dave; erin].

Definition john_doe : ContactModel.t := {|
  ContactModel.first_name := "John";
  ContactModel.last_name := "Doe";
  ContactModel.email := "johndoe@example.com";
  ContactModel.phone_number := "1234567890";
  ContactModel.birth_date := {| year := 2000; month := 10; day := 22 |}
|}.

Definition march_3 : date := {| year := 2024; month := 3; day := 3 |}.
Definition march_28 : date := {| year := 2024; month := 3; day := 28 |}.

(** ** Properties *)

Section properties.
Context `{Env}.

Lemma eq_str_true v s : eq_str v s = true <-> v = VStr s.
Proof.
  destruct v; simpl; try (split; [discriminate | intros [=]]).
  rewrite String.eqb_eq. split; [intros -> | intros [= ->]]; reflexivity.
Qed.

Lemma eq_str_false v s : v <> VStr s -> eq_str v s = false.
Proof.
  intros Hne. destruct (eq_str v s) eqn:E; [|reflexivity].
  apply eq_str_true in E. contradiction.
Qed.

Lemma eq_str_refl s : eq_str (VStr s) s = true.
Proof. apply eq_str_true. reflexivity. Qed.

Lemma getitem_Some d k v : d !! k = Some v -> getitem d k = Ok v.
Proof. unfold getitem. intros ->. reflexivity. Qed.

Lemma getitem_None d k : d !! k = None -> getitem d k = Raise (KeyError k).
Proof. unfold getitem. intros ->. reflexivity. Qed.

Lemma current_email_valid token now email_ :
  valid_access_token token now email_ ->
  current_email token now = Ok (VStr email_).
Proof.
  intros (payload & Hdec & Hscope & Hsub). unfold current_email.
  rewrite Hdec. simpl. rewrite (getitem_Some _ _ _ Hscope). simpl.
  rewrite (getitem_Some _ _ _ Hsub). reflexivity.
Qed.

(** What [jwt.decode] returns has a string for a subject, if it has one. *)
Lemma decode_sub_str token key algorithms now payload v :
  jwt.decode token key algorithms now = Ok payload ->
  payload !! "sub" = Some v ->
  exists s, v = VStr s.
Proof.
  unfold jwt.decode. destruct (jwt.verify token key algorithms) as [p|]; [|discriminate].
  simpl. unfold jwt.validate_claims.
  destruct (jwt.validate_iat p); [|discriminate]. simpl.
  destruct (jwt.validate_nbf p now); [|discriminate]. simpl.
  destruct (jwt.validate_exp p now); [|discriminate]. simpl.
  destruct (jwt.validate_aud p); [|discriminate]. simpl.
  unfold jwt.validate_sub.
  destruct (p !! "sub") as [[]|] eqn:Hp; simpl; try discriminate.
  - destruct (jwt.validate_jti p); [|discriminate]. simpl.
    destruct (jwt.validate_at_hash p); [|discriminate]. simpl.
    intros [= <-]. rewrite Hp. intros [= <-]. eauto.
  - destruct (jwt.validate_jti p); [|discriminate]. simpl.
    destruct (jwt.validate_at_hash p); [|discriminate]. simpl.
    intros [= <-]. rewrite Hp. discriminate.
Qed.

(** C2.  A token that [jwt.decode] accepts and whose scope claim is not
    ["access_token"] makes [get_current_user] raise the 401
    "Could not validate credentials", whatever the store and the cache
    hold; the cache and the log are left as they were. *)
Theorem get_current_user_wrong_scope token now payload scope db w :
  jwt.decode token SECRET_KEY [ALGORITHM] now = Ok payload ->
  payload !! "scope" = Some scope ->
  scope <> VStr "access_token" ->
  get_current_user token db now w
  = (Raise (HTTPException 401 "Could not validate credentials"), w).
Proof.
  intros Hdec Hscope Hne.
  unfold get_current_user, bind, lift, current_email.
  rewrite Hdec. simpl. rewrite (getitem_Some _ _ _ Hscope). simpl.
  rewrite (eq_str_false _ _ Hne). reflexivity.
Qed.

(** C3.  On a token that [jwt.decode] accepts, with scope
    ["access_token"] and no subject claim, [get_current_user] raises
    [KeyError] from [payload["sub"]]: not the 401 it raises elsewhere. *)
Theorem get_current_user_missing_sub token now payload db w :
  jwt.decode token SECRET_KEY [ALGORITHM] now = Ok payload ->
  payload !! "scope" = Some (VStr "access_token") ->
  payload !! "sub" = None ->
  get_current_user token db now w = (Raise (KeyError "sub"), w).
Proof.
  intros Hdec Hscope Hsub.
  unfold get_current_user, bind, lift, current_email.
  rewrite Hdec. simpl. rewrite (getitem_Some _ _ _ Hscope). simpl.
  rewrite (getitem_None _ _ Hsub). reflexivity.
Qed.

(** C10.  On a token that [jwt.decode] accepts (well signed, not
    expired) and whose payload has no ["scope"], each of the three
    consumers raises [KeyError] from [payload['scope']], which
    [except JWTError] does not catch. *)
Theorem missing_scope_KeyError token now payload db w :
  jwt.decode token SECRET_KEY [ALGORITHM] now = Ok payload ->
  payload !! "scope" = None ->
  get_current_user token db now w = (Raise (KeyError "scope"), w)
  /\ decode_refresh_token token now = Raise (KeyError "scope")
  /\ get_email_from_token token now w = (Raise (KeyError "scope"), w).
Proof.
  intros Hdec Hscope. repeat split.
  - unfold get_current_user, bind, lift, current_email.
    rewrite Hdec. simpl. rewrite (getitem_None _ _ Hscope). reflexivity.
  - unfold decode_refresh_token.
    rewrite Hdec. simpl. rewrite (getitem_None _ _ Hscope). reflexivity.
  - unfold get_email_from_token.
    rewrite Hdec. simpl. rewrite (getitem_None _ _ Hscope). reflexivity.
Qed.

(** C5.  Valid access token, no live cache entry, no user with that
    email in the store: [get_current_user] raises the 401, after one
    query of the store, and the cache is as it was. *)
Theorem get_current_user_unknown_user token now email_ db w :
  valid_access_token token now email_ ->
  live (redis w) (cache_key email_) now = None ->
  repository_users.get_user_by_email (VStr email_) db = None ->
  get_current_user token db now w
  = (Raise (HTTPException 401 "Could not validate credentials"),
     {| redis := redis w;
        log := log w ++ [RedisGet (cache_key email_);
                         Print (Text "Get user from Postgres");
                         DbQuery (VStr email_)] |}).
Proof.
  intros Hvalid Hmiss Hdb.
  unfold get_current_user, bind, lift.
  rewrite (current_email_valid _ _ _ Hvalid). simpl.
  unfold redis_get. fold (cache_key email_). rewrite Hmiss. simpl.
  unfold ret. rewrite Hdb. unfold raise. simpl.
  rewrite <- !app_assoc. reflexivity.
Qed.

Lemma run_cache_hit token now email_ db w ent :
  valid_access_token token now email_ ->
  live (redis w) (cache_key email_) now = Some ent ->
  get_current_user token db now w
  = (match pickle_loads (data ent) with
     | Some user => Ok user
     | None => Raise UnpicklingError
     end,
     {| redis := redis w;
        log := log w ++ [RedisGet (cache_key email_);
                         Print (Text "Get user from Cache")] |}).
Proof.
  intros Hvalid Hhit. unfold get_current_user, bind, lift.
  rewrite (current_email_valid _ _ _ Hvalid). simpl.
  unfold redis_get. fold (cache_key email_). rewrite Hhit. simpl.
  rewrite <- !app_assoc. simpl.
  destruct (pickle_loads (data ent)); reflexivity.
Qed.

(** C6.  Valid access token and a live cache entry: [get_current_user]
    returns what [pickle.loads] makes of the entry, the store is not
    queried (the log gains the cache read and the message only), the
    cache is as it was, and the outcome is the same for every content
    of the store.  So when the entry is the snapshot [pickle.dumps] made
    of a user, that user is returned, whatever the store holds now. *)
Theorem get_current_user_cache_hit token now email_ db w ent :
  valid_access_token token now email_ ->
  live (redis w) (cache_key email_) now = Some ent ->
  get_current_user token db now w
  = (match pickle_loads (data ent) with
     | Some user => Ok user
     | None => Raise UnpicklingError
     end,
     {| redis := redis w;
        log := log w ++ [RedisGet (cache_key email_);
                         Print (Text "Get user from Cache")] |})
  /\ (forall db', get_current_user token db' now w = get_current_user token db now w)
  /\ (forall user,
        data ent = pickle_dumps user ->
        pickle_loads (pickle_dumps user) = Some user ->
        fst (get_current_user token db now w) = Ok user).
Proof.
  intros Hvalid Hhit. split; [|split].
  - apply run_cache_hit; assumption.
  - intros db'. rewrite !(run_cache_hit _ _ _ _ _ _ Hvalid Hhit). reflexivity.
  - intros user Hdata Hpickle.
    rewrite (run_cache_hit _ _ _ _ _ _ Hvalid Hhit). simpl.
    rewrite Hdata, Hpickle. reflexivity.
Qed.

Lemma run_miss_found token now email_ db w user :
  valid_access_token token now email_ ->
  live (redis w) (cache_key email_) now = None ->
  repository_users.get_user_by_email (VStr email_) db = Some user ->
  get_current_user token db now w
  = (Raise TypeError,
     {| redis := <[cache_key email_ :=
                     {| data := pickle_dumps user; expire_at := None |}]> (redis w);
        log := log w ++ [RedisGet (cache_key email_);
                         Print (Text "Get user from Postgres");
                         DbQuery (VStr email_);
                         RedisSet (cache_key email_) (pickle_dumps user)] |}).
Proof.
  intros Hvalid Hmiss Hdb.
  unfold get_current_user, bind, lift.
  rewrite (current_email_valid _ _ _ Hvalid). simpl.
  unfold redis_get. fold (cache_key email_). rewrite Hmiss. simpl.
  unfold ret. rewrite Hdb. simpl.
  rewrite <- !app_assoc. reflexivity.
Qed.

(** C1.  Valid access token, no live cache entry, the store has the
    user: [get_current_user] writes the snapshot with [SET] and then
    raises [TypeError] at [await] on the plain reply of the synchronous
    client.  The user is not returned, [EXPIRE] is not reached, and the
    entry, having no time to live, is there at every later instant. *)
Theorem get_current_user_miss_found token now email_ db w user :
  valid_access_token token now email_ ->
  live (redis w) (cache_key email_) now = None ->
  repository_users.get_user_by_email (VStr email_) db = Some user ->
  exists w',
    get_current_user token db now w = (Raise TypeError, w')
    /\ log w' = (log w ++ [RedisGet (cache_key email_);
                           Print (Text "Get user from Postgres");
                           DbQuery (VStr email_);
                           RedisSet (cache_key email_) (pickle_dumps user)])%list
    /\ forall later,
         live (redis w') (cache_key email_) later
         = Some {| data := pickle_dumps user; expire_at := None |}.
Proof.
  intros Hvalid Hmiss Hdb. eexists. split; [|split].
  - apply run_miss_found; eassumption.
  - reflexivity.
  - intros later. unfold live. simpl. rewrite lookup_insert_eq. reflexivity.
Qed.

(** *** The issuers *)

Lemma encode_issued data now expire scope key alg :
  map_Forall (fun _ v => jwt.json_serializable v = true) data ->
  jwt.encode
    (update data [("iat", VDatetime now); ("exp", VDatetime expire);
                  ("scope", VStr scope)]) key alg
  = Ok (jwt.Jws alg (issued_payload data now expire scope)
          (sign key alg (issued_payload data now expire scope))).
Proof.
  intros Hjson. unfold jwt.encode, update. simpl.
  set (m1 := <["scope" := VStr scope]>
               (<["exp" := VDatetime expire]> (<["iat" := VDatetime now]> data))).
  assert (E1 : jwt.convert_time_claim "exp" m1
               = <["exp" := VInt (timegm expire)]> m1).
  { unfold jwt.convert_time_claim, m1.
    rewrite lookup_insert_ne by discriminate.
    rewrite lookup_insert_eq. reflexivity. }
  rewrite E1.
  set (m2 := <["exp" := VInt (timegm expire)]> m1).
  assert (E2 : jwt.convert_time_claim "iat" m2
               = <["iat" := VInt (timegm now)]> m2).
  { unfold jwt.convert_time_claim, m2, m1.
    rewrite !(lookup_insert_ne _ _ "iat") by discriminate.
    rewrite lookup_insert_eq. reflexivity. }
  rewrite E2.
  set (m3 := <["iat" := VInt (timegm now)]> m2).
  assert (E3 : m3 = issued_payload data now expire scope).
  { apply map_eq. intros k. unfold m3, m2, m1, issued_payload.
    destruct (decide (k = "iat")) as [->|Hiat];
      [rewrite lookup_insert_eq, !(lookup_insert_ne _ _ "iat") by discriminate;
       rewrite lookup_insert_eq; reflexivity|].
    rewrite (lookup_insert_ne _ "iat") by congruence.
    destruct (decide (k = "exp")) as [->|Hexp];
      [rewrite lookup_insert_eq, (lookup_insert_ne _ _ "exp") by discriminate;
       rewrite lookup_insert_eq; reflexivity|].
    rewrite (lookup_insert_ne _ "exp") by congruence.
    destruct (decide (k = "scope")) as [->|Hscope];
      [rewrite !lookup_insert_eq; reflexivity|].
    rewrite !(lookup_insert_ne _ _ k) by congruence. reflexivity. }
  assert (E4 : jwt.convert_time_claim "nbf" m3 = m3).
  { unfold jwt.convert_time_claim. rewrite E3. unfold issued_payload.
    rewrite !(lookup_insert_ne _ _ "nbf") by discriminate.
    destruct (data !! "nbf") as [v|] eqn:Hnbf; [|reflexivity].
    specialize (Hjson _ _ Hnbf). destruct v; try reflexivity; discriminate. }
  rewrite E4, E3.
  rewrite bool_decide_eq_true_2; [reflexivity|].
  unfold issued_payload. repeat apply map_Forall_insert_2; auto.
Qed.

Lemma timegm_plus_seconds now s : timegm (now + timedelta_seconds s) = timegm now + s.
Proof.
  unfold timegm, timedelta_seconds, us_per_second.
  apply Z.div_add. discriminate.
Qed.

Lemma timegm_plus_minutes now m : timegm (now + timedelta_minutes m) = timegm now + m * 60.
Proof.
  unfold timegm, timedelta_minutes, us_per_second.
  apply Z.div_add. discriminate.
Qed.

Lemma timegm_plus_days now d : timegm (now + timedelta_days d) = timegm now + d * 86400.
Proof.
  unfold timegm, timedelta_days, us_per_second.
  apply Z.div_add. discriminate.
Qed.

Lemma timegm_mono a b : a <= b -> timegm a <= timegm b.
Proof. intros Hab. unfold timegm, us_per_second. apply Z.div_le_mono; lia. Qed.

Lemma issued_payload_other data now expire scope k :
  k <> "iat" -> k <> "exp" -> k <> "scope" ->
  issued_payload data now expire scope !! k = data !! k.
Proof.
  intros H1 H2 H3. unfold issued_payload.
  rewrite !lookup_insert_ne by congruence. reflexivity.
Qed.

Lemma issued_payload_issues data now expire scope :
  issues data
    (Ok (jwt.Jws ALGORITHM (issued_payload data now expire scope)
           (sign SECRET_KEY ALGORITHM (issued_payload data now expire scope))))
    (timegm now) (timegm expire) scope.
Proof.
  exists (issued_payload data now expire scope).
  split; [reflexivity|]. split; [|split; [|split]].
  - unfold issued_payload.
    rewrite !(lookup_insert_ne _ _ "iat") by discriminate. apply lookup_insert_eq.
  - unfold issued_payload.
    rewrite (lookup_insert_ne _ _ "exp") by discriminate. apply lookup_insert_eq.
  - unfold issued_payload. apply lookup_insert_eq.
  - intros k. apply issued_payload_other.
Qed.

(** The sum [datetime.utcnow() + timedelta(seconds=seconds)]. *)
Lemma checked_sum_Ok now seconds :
  representable now seconds ->
  (let? delta := timedelta seconds in datetime_add now delta)%result
  = Ok (now + timedelta_seconds seconds).
Proof.
  intros [[Hlo Hhi] [Hmin Hmax]]. unfold timedelta, datetime_add.
  rewrite (proj2 (Z.leb_le _ _) Hlo), (proj2 (Z.leb_le _ _) Hhi). cbn [andb rbind].
  rewrite (proj2 (Z.leb_le _ _) Hmin), (proj2 (Z.leb_le _ _) Hmax). reflexivity.
Qed.

Lemma checked_sum_Raise now seconds :
  ~ representable now seconds ->
  (let? delta := timedelta seconds in datetime_add now delta)%result
  = Raise OverflowError.
Proof.
  intros Hnot. unfold timedelta, datetime_add.
  destruct ((-999999999 <=? seconds / 86400) && (seconds / 86400 <=? 999999999))%bool
    eqn:Hdays; [|reflexivity].
  cbn [rbind].
  destruct ((datetime_min <=? now + timedelta_seconds seconds)
            && (now + timedelta_seconds seconds <=? datetime_max))%bool
    eqn:Hrange; [|reflexivity].
  apply andb_true_iff in Hdays as [Hlo%Z.leb_le Hhi%Z.leb_le].
  apply andb_true_iff in Hrange as [Hmin%Z.leb_le Hmax%Z.leb_le].
  destruct Hnot. repeat split; assumption.
Qed.


Lemma truthy_nonzero seconds : seconds <> 0 -> truthy seconds = true.
Proof. intros Hnz. unfold truthy. apply negb_true_iff, Z.eqb_neq. exact Hnz. Qed.

(** C8, as the code has it.  Each issuer puts [iat = now],
    [exp = now + ttl] and its scope over the caller's claims, which it
    keeps otherwise, and signs that: the access token has 900 seconds
    when [expires_delta] is omitted, the refresh token 7 days, the email
    token always 1 day.  A given [expires_delta] other than zero is the
    ttl when [now + ttl] is a [datetime]; when it is not, the issuer
    raises [OverflowError]. *)
Theorem issuers_embed_claims data now :
  map_Forall (fun _ v => jwt.json_serializable v = true) data ->
  issues data (create_access_token data None now)
         (timegm now) (timegm now + 900) "access_token"
  /\ (forall seconds, seconds <> 0 ->
       (representable now seconds ->
        issues data (create_access_token data (Some seconds) now)
               (timegm now) (timegm now + seconds) "access_token")
       /\ (~ representable now seconds ->
           create_access_token data (Some seconds) now = Raise OverflowError))
  /\ issues data (create_refresh_token data None now)
            (timegm now) (timegm now + 7 * 86400) "refresh_token"
  /\ (forall seconds, seconds <> 0 ->
       (representable now seconds ->
        issues data (create_refresh_token data (Some seconds) now)
               (timegm now) (timegm now + seconds) "refresh_token")
       /\ (~ representable now seconds ->
           create_refresh_token data (Some seconds) now = Raise OverflowError))
  /\ issues data (create_email_token data now)
            (timegm now) (timegm now + 86400) "email_token".
Proof.
  intros Hjson. split; [|split; [|split; [|split]]].
  - unfold create_access_token. cbn [rbind].
    rewrite (encode_issued _ _ _ _ _ _ Hjson).
    replace (timegm now + 900) with (timegm (now + timedelta_minutes 15))
      by (rewrite timegm_plus_minutes; lia).
    apply issued_payload_issues.
  - intros seconds Hnz. unfold create_access_token.
    rewrite (truthy_nonzero _ Hnz). split; intros Hrange.
    + rewrite (checked_sum_Ok _ _ Hrange). cbn [rbind].
      rewrite (encode_issued _ _ _ _ _ _ Hjson), <- timegm_plus_seconds.
      apply issued_payload_issues.
    + rewrite (checked_sum_Raise _ _ Hrange). reflexivity.
  - unfold create_refresh_token. cbn [rbind].
    rewrite (encode_issued _ _ _ _ _ _ Hjson).
    replace (timegm now + 7 * 86400) with (timegm (now + timedelta_days 7))
      by (rewrite timegm_plus_days; lia).
    apply issued_payload_issues.
  - intros seconds Hnz. unfold create_refresh_token.
    rewrite (truthy_nonzero _ Hnz). split; intros Hrange.
    + rewrite (checked_sum_Ok _ _ Hrange). cbn [rbind].
      rewrite (encode_issued _ _ _ _ _ _ Hjson), <- timegm_plus_seconds.
      apply issued_payload_issues.
    + rewrite (checked_sum_Raise _ _ Hrange). reflexivity.
  - unfold create_email_token. rewrite (encode_issued _ _ _ _ _ _ Hjson).
    replace (timegm now + 86400) with (timegm (now + timedelta_days 1))
      by (rewrite timegm_plus_days; lia).
    apply issued_payload_issues.
Qed.

(** *** Round trip *)

Lemma verify_signed payload :
  jwt.verify (jwt.Jws ALGORITHM payload (sign SECRET_KEY ALGORITHM payload))
             SECRET_KEY [ALGORITHM]
  = Ok payload.
Proof.
  unfold jwt.verify.
  rewrite bool_decide_eq_true_2 by (apply list_elem_of_singleton; reflexivity).
  rewrite String.eqb_refl. reflexivity.
Qed.

Lemma decode_issued data now expire scope now' s :
  valid_claim_set data now' ->
  data !! "sub" = Some (VStr s) ->
  timegm now' <= timegm expire ->
  jwt.decode
    (jwt.Jws ALGORITHM (issued_payload data now expire scope)
       (sign SECRET_KEY ALGORITHM (issued_payload data now expire scope)))
    SECRET_KEY [ALGORITHM] now'
  = Ok (issued_payload data now expire scope).
Proof.
  intros (Hjson & Hnbf & Haud & Hjti & Hhash) Hsub Hexp.
  unfold jwt.decode. rewrite verify_signed. simpl.
  set (p := issued_payload data now expire scope).
  assert (Hiat : p !! "iat" = Some (VInt (timegm now))).
  { unfold p, issued_payload.
    rewrite !(lookup_insert_ne _ _ "iat") by discriminate. apply lookup_insert_eq. }
  assert (Hex : p !! "exp" = Some (VInt (timegm expire))).
  { unfold p, issued_payload.
    rewrite (lookup_insert_ne _ _ "exp") by discriminate. apply lookup_insert_eq. }
  assert (Hother : forall k, k <> "iat" -> k <> "exp" -> k <> "scope" ->
                             p !! k = data !! k)
    by (intros; apply issued_payload_other; assumption).
  unfold jwt.validate_claims.
  unfold jwt.validate_iat. rewrite Hiat. simpl.
  replace (jwt.validate_nbf p now') with (jwt.validate_nbf data now')
    by (unfold jwt.validate_nbf; rewrite Hother by discriminate; reflexivity).
  rewrite Hnbf. simpl.
  unfold jwt.validate_exp. rewrite Hex. simpl.
  replace (timegm expire <? timegm now') with false
    by (symmetry; apply Z.ltb_ge; assumption).
  simpl.
  replace (jwt.validate_aud p) with (jwt.validate_aud data)
    by (unfold jwt.validate_aud; rewrite Hother by discriminate; reflexivity).
  rewrite Haud. simpl.
  unfold jwt.validate_sub. rewrite Hother by discriminate. rewrite Hsub. simpl.
  replace (jwt.validate_jti p) with (jwt.validate_jti data)
    by (unfold jwt.validate_jti; rewrite Hother by discriminate; reflexivity).
  rewrite Hjti. simpl.
  replace (jwt.validate_at_hash p) with (jwt.validate_at_hash data)
    by (unfold jwt.validate_at_hash; rewrite Hother by discriminate; reflexivity).
  rewrite Hhash. reflexivity.
Qed.

(** C7, as the code has it.  Round trip: an access token issued for a
    claim set with a string subject that the issuer can sign and whose
    other registered claims [jwt.decode] accepts (none in the future
    under ["nbf"], no ["aud"], no ["at_hash"], a string under ["jti"]),
    with the default lifetime or a given one that is not negative and
    keeps the expiry a [datetime], decodes at once, under the same key
    and algorithm, to a payload with the same subject and the scope
    ["access_token"]. *)
Theorem access_token_round_trip data email_ expires_delta now :
  valid_claim_set data now ->
  data !! "sub" = Some (VStr email_) ->
  (forall seconds,
     expires_delta = Some seconds -> 0 <= seconds /\ representable now seconds) ->
  exists token payload,
    create_access_token data expires_delta now = Ok token
    /\ jwt.decode token SECRET_KEY [ALGORITHM] now = Ok payload
    /\ payload !! "sub" = Some (VStr email_)
    /\ payload !! "scope" = Some (VStr "access_token").
Proof.
  intros Hvalid Hsub Httl.
  assert (Hexpire : exists expire,
            match expires_delta with
            | Some seconds =>
                if truthy seconds
                then (let? delta := timedelta seconds in datetime_add now delta)%result
                else Ok (now + timedelta_minutes 15)
            | None => Ok (now + timedelta_minutes 15)
            end = Ok expire
            /\ now <= expire).
  { destruct expires_delta as [seconds|].
    - destruct (Httl seconds eq_refl) as [Hpos Hrange].
      destruct (truthy seconds).
      + rewrite (checked_sum_Ok _ _ Hrange). eexists. split; [reflexivity|].
        unfold timedelta_seconds, us_per_second. lia.
      + eexists. split; [reflexivity|].
        unfold timedelta_minutes, us_per_second. lia.
    - eexists. split; [reflexivity|].
      unfold timedelta_minutes, us_per_second. lia. }
  destruct Hexpire as (expire & Hexpire & Hle).
  unfold create_access_token. rewrite Hexpire. cbn [rbind].
  rewrite (encode_issued _ _ _ _ _ _ (proj1 Hvalid)).
  eexists _, (issued_payload data now expire "access_token").
  split; [reflexivity|]. split; [|split].
  - apply decode_issued with (s := email_); [assumption..|].
    apply timegm_mono. exact Hle.
  - rewrite issued_payload_other by discriminate. assumption.
  - unfold issued_payload. apply lookup_insert_eq.
Qed.

(** *** Tokens that [jwt.decode] refuses *)

Lemma get_current_user_decode_raise token now e db w :
  jwt.decode token SECRET_KEY [ALGORITHM] now = Raise e ->
  get_current_user token db now w
  = (Raise (match e with JWTError _ => credentials_exception | _ => e end), w).
Proof.
  intros Hdec. unfold get_current_user, bind, lift, current_email.
  rewrite Hdec. destruct e; reflexivity.
Qed.

Lemma decode_refresh_token_decode_raise token now e :
  jwt.decode token SECRET_KEY [ALGORITHM] now = Raise e ->
  decode_refresh_token token now
  = Raise (match e with
           | JWTError _ => HTTPException 401 "Could not validate credentials"
           | _ => e
           end).
Proof.
  intros Hdec. unfold decode_refresh_token.
  rewrite Hdec. destruct e; reflexivity.
Qed.

Lemma get_email_from_token_decode_raise token now e w :
  jwt.decode token SECRET_KEY [ALGORITHM] now = Raise e ->
  get_email_from_token token now w
  = match e with
    | JWTError _ =>
        (Raise (HTTPException 422 "Invalid token for email verification"),
         {| redis := redis w; log := log w ++ [Print (Exc e)] |})
    | _ => (Raise e, w)
    end.
Proof.
  intros Hdec. unfold get_email_from_token.
  rewrite Hdec. destruct e; reflexivity.
Qed.

(** A token whose ["exp"] is before the current second is refused,
    whatever else it holds. *)
Lemma decode_expired alg payload signature key algorithms exp now :
  payload !! "exp" = Some (VInt exp) ->
  exp < timegm now ->
  exists e, jwt.decode (jwt.Jws alg payload signature) key algorithms now = Raise e.
Proof.
  intros Hexp Hpast. unfold jwt.decode, jwt.verify.
  destruct (bool_decide (alg ∈ algorithms) && _)%bool; [|eexists; reflexivity].
  simpl. unfold jwt.validate_claims.
  destruct (jwt.validate_iat payload); [|eexists; reflexivity]. simpl.
  destruct (jwt.validate_nbf payload now); [|eexists; reflexivity]. simpl.
  unfold jwt.validate_exp. rewrite Hexp. simpl.
  apply Z.ltb_lt in Hpast. rewrite Hpast. eexists; reflexivity.
Qed.


(** C9, as the code has it.  [get_email_from_token] raises the 422
    "Invalid token for email verification" when [jwt.decode] raises a
    [JWTError]; on a token that decodes with a scope other than
    ["email_token"] it raises the 401 "Invalid scope for token"; on one
    that decodes with scope ["email_token"] and a subject it returns the
    subject, a string. *)
Theorem get_email_from_token_outcomes token now w :
  (forall j,
     jwt.decode token SECRET_KEY [ALGORITHM] now = Raise (JWTError j) ->
     get_email_from_token token now w
     = (Raise (HTTPException 422 "Invalid token for email verification"),
        {| redis := redis w; log := log w ++ [Print (Exc (JWTError j))] |}))
  /\ (forall payload scope,
        jwt.decode token SECRET_KEY [ALGORITHM] now = Ok payload ->
        payload !! "scope" = Some scope ->
        scope <> VStr "email_token" ->
        get_email_from_token token now w
        = (Raise (HTTPException 401 "Invalid scope for token"), w))
  /\ (forall payload email_,
        jwt.decode token SECRET_KEY [ALGORITHM] now = Ok payload ->
        payload !! "scope" = Some (VStr "email_token") ->
        payload !! "sub" = Some email_ ->
        get_email_from_token token now w = (Ok email_, w)
        /\ exists s, email_ = VStr s).
Proof.
  split; [|split].
  - intros j Hdec. rewrite (get_email_from_token_decode_raise _ _ _ _ Hdec).
    reflexivity.
  - intros payload scope Hdec Hscope Hne. unfold get_email_from_token.
    rewrite Hdec. simpl. rewrite (getitem_Some _ _ _ Hscope). simpl.
    rewrite (eq_str_false _ _ Hne). reflexivity.
  - intros payload email_ Hdec Hscope Hsub. split.
    + unfold get_email_from_token.
      rewrite Hdec. simpl. rewrite (getitem_Some _ _ _ Hscope). simpl.
      rewrite (getitem_Some _ _ _ Hsub). reflexivity.
    + exact (decode_sub_str _ _ _ _ _ _ Hdec Hsub).
Qed.

(** *** Staleness *)

(** After a miss has written the snapshot of a user, every later call
    with a valid token returns that snapshot, whatever the store holds
    by then: the entry written by [SET] alone never expires. *)
Lemma snapshot_outlives_mutation token now now' email_ db db' w user :
  valid_access_token token now email_ ->
  valid_access_token token now' email_ ->
  live (redis w) (cache_key email_) now = None ->
  repository_users.get_user_by_email (VStr email_) db = Some user ->
  pickle_loads (pickle_dumps user) = Some user ->
  fst (get_current_user token db' now'
         (snd (get_current_user token db now w))) = Ok user.
Proof.
  intros Hvalid Hvalid' Hmiss Hdb Hpickle.
  rewrite (run_miss_found _ _ _ _ _ _ Hvalid Hmiss Hdb). simpl.
  set (w1 := {| redis := _; log := _ |}).
  assert (Hlive : live (redis w1) (cache_key email_) now'
                  = Some {| data := pickle_dumps user; expire_at := None |}).
  { unfold live, w1. simpl. rewrite lookup_insert_eq. reflexivity. }
  rewrite (run_cache_hit _ _ _ db' _ _ Hvalid' Hlive). simpl.
  rewrite Hpickle. reflexivity.
Qed.

End properties.

(** ** Further properties of the service *)

Section more_properties.
Context `{Env}.

(** What [jwt.encode] signs keeps every claim that is not one of the
    three instants. *)
Lemma encode_keeps claims key alg token k :
  k <> "exp" -> k <> "iat" -> k <> "nbf" ->
  jwt.encode claims key alg = Ok token ->
  exists payload,
    token = jwt.Jws alg payload (sign key alg payload)
    /\ payload !! k = claims !! k.
Proof.
  intros Hexp Hiat Hnbf. unfold jwt.encode.
  destruct (bool_decide _); [|discriminate]. intros [= <-].
  eexists. split; [reflexivity|].
  assert (Hconv : forall c m, k <> c -> jwt.convert_time_claim c m !! k = m !! k).
  { intros c m Hne. unfold jwt.convert_time_claim.
    destruct (m !! c) as [[]|]; try reflexivity.
    apply lookup_insert_ne. congruence. }
  rewrite !Hconv by congruence. reflexivity.
Qed.

Lemma update_scope data now expire scope :
  update data [("iat", VDatetime now); ("exp", VDatetime expire);
               ("scope", VStr scope)] !! "scope" = Some (VStr scope).
Proof. unfold update. simpl. apply lookup_insert_eq. Qed.

Lemma create_access_token_scope data expires_delta now token :
  create_access_token data expires_delta now = Ok token ->
  exists payload signature,
    token = jwt.Jws ALGORITHM payload signature
    /\ payload !! "scope" = Some (VStr "access_token").
Proof.
  unfold create_access_token. intros Henc.
  destruct (match expires_delta with Some _ => _ | None => _ end)
    as [expire|e]; [|discriminate].
  cbn [rbind] in Henc.
  apply (encode_keeps _ _ _ _ "scope") in Henc as (payload & -> & Hk);
    try discriminate.
  rewrite update_scope in Hk. eauto.
Qed.

Lemma create_refresh_token_scope data expires_delta now token :
  create_refresh_token data expires_delta now = Ok token ->
  exists payload signature,
    token = jwt.Jws ALGORITHM payload signature
    /\ payload !! "scope" = Some (VStr "refresh_token").
Proof.
  unfold create_refresh_token. intros Henc.
  destruct (match expires_delta with Some _ => _ | None => _ end)
    as [expire|e]; [|discriminate].
  cbn [rbind] in Henc.
  apply (encode_keeps _ _ _ _ "scope") in Henc as (payload & -> & Hk);
    try discriminate.
  rewrite update_scope in Hk. eauto.
Qed.

Lemma create_email_token_scope data now token :
  create_email_token data now = Ok token ->
  exists payload signature,
    token = jwt.Jws ALGORITHM payload signature
    /\ payload !! "scope" = Some (VStr "email_token").
Proof.
  unfold create_email_token. intros Henc.
  apply (encode_keeps _ _ _ _ "scope") in Henc as (payload & -> & Hk);
    try discriminate.
  rewrite update_scope in Hk. eauto.
Qed.

(** What [jwt.decode] returns is the payload of the token. *)
Lemma decode_payload alg payload signature key algorithms now p :
  jwt.decode (jwt.Jws alg payload signature) key algorithms now = Ok p ->
  p = payload.
Proof.
  unfold jwt.decode, jwt.verify.
  destruct (_ && _)%bool; [|discriminate]. simpl.
  destruct (jwt.validate_claims payload now); [|discriminate]. simpl.
  intros [= <-]. reflexivity.
Qed.

(** A payload with another scope than the one a consumer expects. *)
Lemma get_current_user_other_scope alg payload signature scope now db w :
  payload !! "scope" = Some (VStr scope) ->
  scope <> "access_token" ->
  exists e, get_current_user (jwt.Jws alg payload signature) db now w = (Raise e, w).
Proof.
  intros Hscope Hne.
  destruct (jwt.decode (jwt.Jws alg payload signature) SECRET_KEY [ALGORITHM] now)
    as [p|e] eqn:Hdec.
  - pose proof (decode_payload _ _ _ _ _ _ _ Hdec) as ->.
    unfold get_current_user, bind, lift, current_email.
    rewrite Hdec. simpl. rewrite (getitem_Some _ _ _ Hscope). simpl.
    rewrite (proj2 (String.eqb_neq _ _) Hne). eauto.
  - rewrite (get_current_user_decode_raise _ _ _ _ _ Hdec). eauto.
Qed.

Lemma decode_refresh_token_other_scope alg payload signature scope now :
  payload !! "scope" = Some (VStr scope) ->
  scope <> "refresh_token" ->
  exists e, decode_refresh_token (jwt.Jws alg payload signature) now = Raise e.
Proof.
  intros Hscope Hne.
  destruct (jwt.decode (jwt.Jws alg payload signature) SECRET_KEY [ALGORITHM] now)
    as [p|e] eqn:Hdec.
  - pose proof (decode_payload _ _ _ _ _ _ _ Hdec) as ->.
    unfold decode_refresh_token.
    rewrite Hdec. simpl. rewrite (getitem_Some _ _ _ Hscope). simpl.
    rewrite (proj2 (String.eqb_neq _ _) Hne). eauto.
  - rewrite (decode_refresh_token_decode_raise _ _ _ Hdec). eauto.
Qed.

Lemma get_email_from_token_other_scope alg payload signature scope now w :
  payload !! "scope" = Some (VStr scope) ->
  scope <> "email_token" ->
  exists e w',
    get_email_from_token (jwt.Jws alg payload signature) now w = (Raise e, w')
    /\ redis w' = redis w.
Proof.
  intros Hscope Hne.
  destruct (jwt.decode (jwt.Jws alg payload signature) SECRET_KEY [ALGORITHM] now)
    as [p|e] eqn:Hdec.
  - pose proof (decode_payload _ _ _ _ _ _ _ Hdec) as ->.
    unfold get_email_from_token.
    rewrite Hdec. simpl. rewrite (getitem_Some _ _ _ Hscope). simpl.
    rewrite (proj2 (String.eqb_neq _ _) Hne). eauto.
  - rewrite (get_email_from_token_decode_raise _ _ _ _ Hdec).
    destruct e; eauto.
Qed.

(** A token of one kind is never taken for a token of another kind: at
    whatever instant, a consumer raises on a token that the issuer of
    another scope has issued, and the cache is as it was. *)
Theorem tokens_are_not_interchangeable data expires_delta now token now' db w :
  (create_access_token data expires_delta now = Ok token ->
     (exists e, decode_refresh_token token now' = Raise e)
     /\ (exists e w', get_email_from_token token now' w = (Raise e, w')
                     /\ redis w' = redis w))
  /\ (create_refresh_token data expires_delta now = Ok token ->
       (exists e, get_current_user token db now' w = (Raise e, w))
       /\ (exists e w', get_email_from_token token now' w = (Raise e, w')
                       /\ redis w' = redis w))
  /\ (create_email_token data now = Ok token ->
       (exists e, get_current_user token db now' w = (Raise e, w))
       /\ (exists e, decode_refresh_token token now' = Raise e)).
Proof.
  split; [|split].
  - intros (payload & signature & -> & Hscope)%create_access_token_scope. split.
    + eapply decode_refresh_token_other_scope; [exact Hscope|discriminate].
    + eapply get_email_from_token_other_scope; [exact Hscope|discriminate].
  - intros (payload & signature & -> & Hscope)%create_refresh_token_scope. split.
    + eapply get_current_user_other_scope; [exact Hscope|discriminate].
    + eapply get_email_from_token_other_scope; [exact Hscope|discriminate].
  - intros (payload & signature & -> & Hscope)%create_email_token_scope. split.
    + eapply get_current_user_other_scope; [exact Hscope|discriminate].
    + eapply decode_refresh_token_other_scope; [exact Hscope|discriminate].
Qed.

(** *** Round trips of the refresh and the email token *)

Lemma timegm_expire_days now now' d :
  timegm now' <= timegm now + d * 86400 ->
  timegm now' <= timegm (now + timedelta_days d).
Proof. rewrite timegm_plus_days. trivial. Qed.

(** A refresh token issued with the default lifetime gives back its
    subject to [decode_refresh_token] at every instant up to seven days
    after the second of issue. *)
Theorem refresh_token_round_trip data email_ now now' :
  valid_claim_set data now' ->
  data !! "sub" = Some (VStr email_) ->
  timegm now' <= timegm now + 7 * 86400 ->
  exists token,
    create_refresh_token data None now = Ok token
    /\ decode_refresh_token token now' = Ok (VStr email_).
Proof.
  intros Hvalid Hsub Hlife. unfold create_refresh_token. cbn [rbind].
  rewrite (encode_issued _ _ _ _ _ _ (proj1 Hvalid)).
  eexists. split; [reflexivity|]. unfold decode_refresh_token.
  rewrite (decode_issued _ _ _ _ _ email_ Hvalid Hsub)
    by (apply timegm_expire_days; exact Hlife).
  simpl. unfold getitem, issued_payload.
  rewrite lookup_insert_eq. simpl.
  rewrite !(lookup_insert_ne _ _ "sub") by discriminate.
  rewrite Hsub. reflexivity.
Qed.

(** An email token gives back its subject to [get_email_from_token] at
    every instant up to one day after the second of issue, and the call
    leaves the cache and the log as they were. *)
Theorem email_token_round_trip data email_ now now' w :
  valid_claim_set data now' ->
  data !! "sub" = Some (VStr email_) ->
  timegm now' <= timegm now + 86400 ->
  exists token,
    create_email_token data now = Ok token
    /\ get_email_from_token token now' w = (Ok (VStr email_), w).
Proof.
  intros Hvalid Hsub Hlife. unfold create_email_token.
  rewrite (encode_issued _ _ _ _ _ _ (proj1 Hvalid)).
  eexists. split; [reflexivity|]. unfold get_email_from_token.
  rewrite (decode_issued _ _ _ _ _ email_ Hvalid Hsub)
    by (apply timegm_expire_days; lia).
  simpl. unfold getitem, issued_payload.
  rewrite lookup_insert_eq. simpl.
  rewrite !(lookup_insert_ne _ _ "sub") by discriminate.
  rewrite Hsub. reflexivity.
Qed.

(** The access token issued by default lives 900 seconds: up to the
    second of issue plus 900 it is a valid access token for its subject,
    and from the next second on [get_current_user] refuses it. *)
Theorem access_token_lifetime data email_ now :
  map_Forall (fun _ v => jwt.json_serializable v = true) data ->
  data !! "sub" = Some (VStr email_) ->
  exists token,
    create_access_token data None now = Ok token
    /\ (forall now',
          valid_claim_set data now' ->
          timegm now' <= timegm now + 900 ->
          valid_access_token token now' email_)
    /\ (forall now' db w,
          timegm now + 900 < timegm now' ->
          exists e, get_current_user token db now' w = (Raise e, w)).
Proof.
  intros Hjson Hsub. unfold create_access_token. cbn [rbind].
  rewrite (encode_issued _ _ _ _ _ _ Hjson).
  eexists. split; [reflexivity|]. split.
  - intros now' Hvalid Hlife. eexists. split; [|split].
    + apply decode_issued with (s := email_); [assumption..|].
      rewrite timegm_plus_minutes. lia.
    + unfold issued_payload. apply lookup_insert_eq.
    + rewrite issued_payload_other by discriminate. exact Hsub.
  - intros now' db w Hlate.
    destruct (decode_expired ALGORITHM
                (issued_payload data now (now + timedelta_minutes 15) "access_token")
                (sign SECRET_KEY ALGORITHM
                   (issued_payload data now (now + timedelta_minutes 15) "access_token"))
                SECRET_KEY [ALGORITHM]
                (timegm (now + timedelta_minutes 15)) now') as [e He].
    + unfold issued_payload.
      rewrite lookup_insert_ne by discriminate. apply lookup_insert_eq.
    + rewrite timegm_plus_minutes. lia.
    + rewrite (get_current_user_decode_raise _ _ _ _ _ He). eauto.
Qed.

(** *** Tokens that were not signed with the key *)

Lemma decode_unverified token now :
  jwt.verify token SECRET_KEY [ALGORITHM] = Raise (JWTError JWSError) ->
  jwt.decode token SECRET_KEY [ALGORITHM] now = Raise (JWTError JWSError).
Proof. unfold jwt.decode. intros ->. reflexivity. Qed.

Lemma verify_forged alg payload signature :
  alg <> ALGORITHM \/ signature <> sign SECRET_KEY alg payload ->
  jwt.verify (jwt.Jws alg payload signature) SECRET_KEY [ALGORITHM]
  = Raise (JWTError JWSError).
Proof.
  intros Hforged. unfold jwt.verify.
  destruct (bool_decide (alg ∈ [ALGORITHM])) eqn:Halg; [|reflexivity].
  destruct (String.eqb signature (sign SECRET_KEY alg payload)) eqn:Hsig;
    [|reflexivity].
  apply bool_decide_eq_true_1, list_elem_of_singleton in Halg.
  apply String.eqb_eq in Hsig. destruct Hforged; contradiction.
Qed.

(** A string that is not a token, a token that names another algorithm
    than the configured one, and a token whose signature is not the one
    the key gives for its payload are refused by the three consumers:
    401 "Could not validate credentials" from [get_current_user] and
    [decode_refresh_token], 422 from [get_email_from_token]; the cache is
    not read. *)
Theorem unsigned_tokens_rejected token now db w :
  match token with
  | jwt.Malformed _ => True
  | jwt.Jws alg payload signature =>
      alg <> ALGORITHM \/ signature <> sign SECRET_KEY alg payload
  end ->
  get_current_user token db now w
  = (Raise (HTTPException 401 "Could not validate credentials"), w)
  /\ decode_refresh_token token now
     = Raise (HTTPException 401 "Could not validate credentials")
  /\ get_email_from_token token now w
     = (Raise (HTTPException 422 "Invalid token for email verification"),
        {| redis := redis w;
           log := log w ++ [Print (Exc (JWTError JWSError))] |}).
Proof.
  intros Hforged.
  assert (Hdec : jwt.decode token SECRET_KEY [ALGORITHM] now
                 = Raise (JWTError JWSError)).
  { apply decode_unverified. destruct token as [s|alg payload signature].
    - reflexivity.
    - apply verify_forged. exact Hforged. }
  split; [|split].
  - rewrite (get_current_user_decode_raise _ _ _ _ _ Hdec). reflexivity.
  - rewrite (decode_refresh_token_decode_raise _ _ _ Hdec). reflexivity.
  - rewrite (get_email_from_token_decode_raise _ _ _ _ Hdec). reflexivity.
Qed.

(** *** The outcomes of [decode_refresh_token] *)

(** [decode_refresh_token] raises the 401 "Could not validate
    credentials" when [jwt.decode] raises a [JWTError], the 401 "Invalid
    scope for token" on a decoded scope other than ["refresh_token"],
    [KeyError] on a refresh token without a subject, and returns the
    subject, a string, otherwise. *)
Theorem decode_refresh_token_outcomes token now :
  (forall j,
     jwt.decode token SECRET_KEY [ALGORITHM] now = Raise (JWTError j) ->
     decode_refresh_token token now
     = Raise (HTTPException 401 "Could not validate credentials"))
  /\ (forall payload scope,
        jwt.decode token SECRET_KEY [ALGORITHM] now = Ok payload ->
        payload !! "scope" = Some scope ->
        scope <> VStr "refresh_token" ->
        decode_refresh_token token now
        = Raise (HTTPException 401 "Invalid scope for token"))
  /\ (forall payload,
        jwt.decode token SECRET_KEY [ALGORITHM] now = Ok payload ->
        payload !! "scope" = Some (VStr "refresh_token") ->
        payload !! "sub" = None ->
        decode_refresh_token token now = Raise (KeyError "sub"))
  /\ (forall payload email_,
        jwt.decode token SECRET_KEY [ALGORITHM] now = Ok payload ->
        payload !! "scope" = Some (VStr "refresh_token") ->
        payload !! "sub" = Some email_ ->
        decode_refresh_token token now = Ok email_
        /\ exists s, email_ = VStr s).
Proof.
  split; [|split; [|split]].
  - intros j Hdec. rewrite (decode_refresh_token_decode_raise _ _ _ Hdec).
    reflexivity.
  - intros payload scope Hdec Hscope Hne. unfold decode_refresh_token.
    rewrite Hdec. simpl. rewrite (getitem_Some _ _ _ Hscope). simpl.
    rewrite (eq_str_false _ _ Hne). reflexivity.
  - intros payload Hdec Hscope Hsub. unfold decode_refresh_token.
    rewrite Hdec. simpl. rewrite (getitem_Some _ _ _ Hscope). simpl.
    rewrite (getitem_None _ _ Hsub). reflexivity.
  - intros payload email_ Hdec Hscope Hsub. split.
    + unfold decode_refresh_token.
      rewrite Hdec. simpl. rewrite (getitem_Some _ _ _ Hscope). simpl.
      rewrite (getitem_Some _ _ _ Hsub). reflexivity.
    + exact (decode_sub_str _ _ _ _ _ _ Hdec Hsub).
Qed.

(** *** What [get_current_user] does to the cache *)

Lemma current_email_Ok token now v :
  current_email token now = Ok v ->
  exists email_, v = VStr email_ /\ valid_access_token token now email_.
Proof.
  unfold current_email.
  destruct (jwt.decode token SECRET_KEY [ALGORITHM] now) as [payload|e] eqn:Hdec;
    [|destruct e; discriminate].
  simpl. unfold getitem.
  destruct (payload !! "scope") as [scope|] eqn:Hscope; [|discriminate]. simpl.
  destruct (eq_str scope "access_token") eqn:Heq; [|discriminate].
  apply eq_str_true in Heq. subst scope.
  destruct (payload !! "sub") as [sub|] eqn:Hsub; [|discriminate]. simpl.
  destruct (decode_sub_str _ _ _ _ _ _ Hdec Hsub) as [s ->].
  simpl. intros [= <-]. exists s. split; [reflexivity|].
  exists payload. auto.
Qed.

Lemma cache_key_inj e1 e2 : cache_key e1 = cache_key e2 -> e1 = e2.
Proof.
  unfold cache_key. intros Heq. cbv [String.app] in Heq.
  injection Heq. trivial.
Qed.

Lemma run_unknown_user token now email_ db w :
  valid_access_token token now email_ ->
  live (redis w) (cache_key email_) now = None ->
  repository_users.get_user_by_email (VStr email_) db = None ->
  get_current_user token db now w
  = (Raise credentials_exception,
     {| redis := redis w;
        log := log w ++ [RedisGet (cache_key email_);
                         Print (Text "Get user from Postgres");
                         DbQuery (VStr email_)] |}).
Proof.
  intros Hvalid Hmiss Hdb.
  unfold get_current_user, bind, lift.
  rewrite (current_email_valid _ _ _ Hvalid). simpl.
  unfold redis_get. fold (cache_key email_). rewrite Hmiss. simpl.
  unfold ret. rewrite Hdb. unfold raise. simpl.
  rewrite <- !app_assoc. reflexivity.
Qed.

Lemma run_refused token now e db w :
  current_email token now = Raise e ->
  get_current_user token db now w = (Raise e, w).
Proof.
  intros Hemail. unfold get_current_user, bind, lift.
  rewrite Hemail. reflexivity.
Qed.

Lemma live_lookup r key now ent :
  live r key now = Some ent -> r !! key = Some ent.
Proof.
  unfold live. destruct (r !! key) as [e|]; [|discriminate].
  destruct (expire_at e) as [t|]; [destruct (t <=? now); [discriminate|]|];
    intros [= ->]; reflexivity.
Qed.

(** The four ways a call of [get_current_user] goes. *)
Lemma get_current_user_cases token db now w :
  (exists e, get_current_user token db now w = (Raise e, w))
  \/ exists email_,
       valid_access_token token now email_
       /\ ((exists ent,
              live (redis w) (cache_key email_) now = Some ent
              /\ exists w',
                   get_current_user token db now w
                   = (match pickle_loads (data ent) with
                      | Some user => Ok user
                      | None => Raise UnpicklingError
                      end, w')
                   /\ redis w' = redis w)
           \/ (live (redis w) (cache_key email_) now = None
               /\ exists user w',
                    repository_users.get_user_by_email (VStr email_) db = Some user
                    /\ get_current_user token db now w = (Raise TypeError, w')
                    /\ redis w'
                       = <[cache_key email_ :=
                             {| data := pickle_dumps user; expire_at := None |}]>
                           (redis w))
           \/ (exists e w',
                 get_current_user token db now w = (Raise e, w')
                 /\ redis w' = redis w)).
Proof.
  destruct (current_email token now) as [v|e] eqn:Hemail;
    [|left; exists e; apply run_refused; exact Hemail].
  apply current_email_Ok in Hemail as (email_ & _ & Hvalid).
  right. exists email_. split; [exact Hvalid|].
  destruct (live (redis w) (cache_key email_) now) as [ent|] eqn:Hlive.
  - left. exists ent. split; [reflexivity|].
    rewrite (run_cache_hit _ _ _ _ _ _ Hvalid Hlive). eauto.
  - destruct (repository_users.get_user_by_email (VStr email_) db) as [u|] eqn:Hdb.
    + right. left. split; [reflexivity|]. exists u.
      rewrite (run_miss_found _ _ _ _ _ _ Hvalid Hlive Hdb). eauto.
    + right. right.
      rewrite (run_unknown_user _ _ _ _ _ Hvalid Hlive Hdb). eauto.
Qed.

(** [get_current_user] returns a user only to a valid access token, and
    only out of the cache: the user is what [pickle.loads] makes of the
    live entry under the key of the token's subject, and the cache is
    as it was. *)
Theorem get_current_user_returns_cached token db now w user w' :
  get_current_user token db now w = (Ok user, w') ->
  exists email_ ent,
    valid_access_token token now email_
    /\ live (redis w) (cache_key email_) now = Some ent
    /\ pickle_loads (data ent) = Some user
    /\ redis w' = redis w.
Proof.
  intros Hrun.
  destruct (get_current_user_cases token db now w)
    as [[e He]|(email_ & Hvalid & [(ent & Hlive & w1 & H1 & Hr)
                                  |[(_ & u & w1 & _ & H1 & _)|(e & w1 & H1 & _)]])];
    rewrite Hrun in *; try discriminate.
  exists email_, ent.
  destruct (pickle_loads (data ent)) as [u|]; [|discriminate].
  injection H1 as -> ->. auto.
Qed.

(** [get_current_user] changes the cache at one key at most: the key of
    the subject of a valid access token, when it holds no live entry and
    the store has a user with that email, whose snapshot is then what
    the key holds, without a time to live.  Every other key, and that
    key in every other case, holds what it held. *)
Theorem get_current_user_writes_one_key token db now w key :
  redis (snd (get_current_user token db now w)) !! key = redis w !! key
  \/ exists email_ user,
       valid_access_token token now email_
       /\ key = cache_key email_
       /\ live (redis w) key now = None
       /\ repository_users.get_user_by_email (VStr email_) db = Some user
       /\ redis (snd (get_current_user token db now w)) !! key
          = Some {| data := pickle_dumps user; expire_at := None |}.
Proof.
  destruct (get_current_user_cases token db now w)
    as [[e He]|(email_ & Hvalid & [(ent & Hlive & w1 & H1 & Hr)
                                  |[(Hlive & u & w1 & Hdb & H1 & Hr)
                                   |(e & w1 & H1 & Hr)]])].
  - rewrite He. left. reflexivity.
  - rewrite H1. simpl. rewrite Hr. left. reflexivity.
  - rewrite H1. simpl. rewrite Hr.
    destruct (decide (key = cache_key email_)) as [->|Hne].
    + right. exists email_, u. rewrite lookup_insert_eq. auto.
    + left. apply lookup_insert_ne. congruence.
  - rewrite H1. simpl. rewrite Hr. left. reflexivity.
Qed.

Lemma get_user_by_email_email email_ db user :
  repository_users.get_user_by_email (VStr email_) db = Some user ->
  email user = email_.
Proof.
  unfold repository_users.get_user_by_email. intros Hfind.
  apply List.find_some in Hfind as [_ Heq].
  apply eq_str_true in Heq. congruence.
Qed.

(** Where [pickle.loads] gives back what [pickle.dumps] was given: if
    every entry under the key of an email is the snapshot of a user with
    that email, this is still so after [get_current_user], and a user it
    returns has the email that is the subject of the token. *)
Theorem cached_users_match_their_key token db now w :
  (forall user, pickle_loads (pickle_dumps user) = Some user) ->
  cache_sound (redis w) ->
  cache_sound (redis (snd (get_current_user token db now w)))
  /\ forall user,
       fst (get_current_user token db now w) = Ok user ->
       exists email_,
         valid_access_token token now email_ /\ email user = email_.
Proof.
  intros Hpickle Hsound.
  destruct (get_current_user_cases token db now w)
    as [[e He]|(email_ & Hvalid & [(ent & Hlive & w1 & H1 & Hr)
                                  |[(Hlive & u & w1 & Hdb & H1 & Hr)
                                   |(e & w1 & H1 & Hr)]])].
  - rewrite He. simpl. split; [exact Hsound|discriminate].
  - rewrite H1. simpl. rewrite Hr. split; [exact Hsound|].
    intros user Hok. exists email_. split; [exact Hvalid|].
    destruct (pickle_loads (data ent)) as [u|] eqn:Hloads; [|discriminate].
    injection Hok as ->.
    exact (Hsound _ _ _ (live_lookup _ _ _ _ Hlive) Hloads).
  - rewrite H1. simpl. rewrite Hr. split; [|discriminate].
    intros e2 ent2 u2 Hlook Hloads.
    destruct (decide (cache_key e2 = cache_key email_)) as [Heq|Hne].
    + rewrite Heq, lookup_insert_eq in Hlook. injection Hlook as <-.
      simpl in Hloads. rewrite Hpickle in Hloads. injection Hloads as <-.
      apply cache_key_inj in Heq. subst e2.
      exact (get_user_by_email_email _ _ _ Hdb).
    + rewrite lookup_insert_ne in Hlook by congruence.
      exact (Hsound _ _ _ Hlook Hloads).
  - rewrite H1. simpl. rewrite Hr. split; [exact Hsound|discriminate].
Qed.

End more_properties.

(** ** Properties of the users repository *)

Section users_properties.

Lemma list_find_insert_same {A} (P : A -> Prop) `{forall x, Decision (P x)}
    (l : list A) i x x' :
  l !! i = Some x ->
  (P x' <-> P x) ->
  list_find P (<[i := x']> l)
  = match list_find P l with
    | Some (j, y) => Some (j, if decide (j = i) then x' else y)
    | None => None
    end.
Proof.
  revert i. induction l as [|a l IH]; intros i Hi Hiff; [discriminate|].
  destruct i as [|i]; simpl in *.
  - injection Hi as ->. destruct (decide (P x)) as [Hx|Hx].
    + rewrite decide_True by tauto. reflexivity.
    + rewrite decide_False by tauto.
      destruct (list_find P l) as [[j y]|]; reflexivity.
  - destruct (decide (P a)); [reflexivity|].
    rewrite (IH i Hi Hiff).
    destruct (list_find P l) as [[j y]|]; simpl; [|reflexivity].
    destruct (decide (j = i)) as [->|Hne].
    + rewrite decide_True by reflexivity. reflexivity.
    + rewrite decide_False by congruence. reflexivity.
Qed.

(** [get_user_by_email] is the row [first_by_email] points at. *)
Lemma get_user_by_email_first email_ (db : Session) :
  repository_users.get_user_by_email (VStr email_) db
  = snd <$> users.first_by_email email_ db.
Proof.
  unfold repository_users.get_user_by_email, users.first_by_email.
  induction db as [|u db IH]; [reflexivity|]. cbn -[eq_str].
  destruct (eq_str (VStr email_) (email u)) eqn:Heq.
  - rewrite decide_True by reflexivity. reflexivity.
  - rewrite decide_False by discriminate. rewrite IH.
    destruct (list_find _ db) as [[j y]|]; reflexivity.
Qed.

Lemma first_by_email_row email_ (db : Session) i user :
  users.first_by_email email_ db = Some (i, user) ->
  db !! i = Some user /\ email user = email_.
Proof.
  unfold users.first_by_email. intros (Hi & Heq & _)%list_find_Some.
  split; [exact Hi|]. apply String.eqb_eq in Heq. congruence.
Qed.

(** [get_user_by_email] returns a row of the table with the email asked
    for, and returns [None] only when no row has it. *)
Theorem get_user_by_email_finds email_ (db : Session) :
  (forall user,
     repository_users.get_user_by_email (VStr email_) db = Some user ->
     user ∈ db /\ email user = email_)
  /\ (repository_users.get_user_by_email (VStr email_) db = None <->
      forall user, user ∈ db -> email user <> email_).
Proof.
  unfold repository_users.get_user_by_email. split; [|split].
  - intros user [Hin Heq]%List.find_some. split.
    + apply list_elem_of_In. exact Hin.
    + apply String.eqb_eq in Heq. congruence.
  - intros Hnone user Hin%list_elem_of_In Heq.
    pose proof (List.find_none _ _ Hnone _ Hin) as Hne. simpl in Hne.
    apply String.eqb_neq in Hne. congruence.
  - intros Hall.
    destruct (List.find _ db) as [u|] eqn:Hfind; [|reflexivity].
    apply List.find_some in Hfind as [Hin Heq].
    apply String.eqb_eq in Heq. apply list_elem_of_In in Hin.
    destruct (Hall u Hin). congruence.
Qed.

(** On an email that no user has, [confirmed_email] and [update_avatar]
    raise [AttributeError]: they assign to an attribute of the [None]
    that [get_user_by_email] returned. *)
Theorem mutators_unknown_email email_ url (db : Session) :
  repository_users.get_user_by_email (VStr email_) db = None ->
  users.confirmed_email email_ db = inl (AttributeError "NoneType" "confirmed")
  /\ users.update_avatar email_ url db = inl (AttributeError "NoneType" "avatar").
Proof.
  rewrite get_user_by_email_first. unfold users.confirmed_email, users.update_avatar.
  destruct (users.first_by_email email_ db) as [[i u]|]; [discriminate|].
  split; reflexivity.
Qed.

Lemma find_after_assignment email_ (db : Session) i user (f : User -> User) e' :
  users.first_by_email email_ db = Some (i, user) ->
  email (f user) = email user ->
  repository_users.get_user_by_email (VStr e') (<[i := f user]> db)
  = if decide (e' = email_) then Some (f user)
    else repository_users.get_user_by_email (VStr e') db.
Proof.
  intros Hfirst Hemail.
  pose proof (first_by_email_row _ _ _ _ Hfirst) as [Hi Heq].
  rewrite !get_user_by_email_first. unfold users.first_by_email.
  rewrite (list_find_insert_same _ _ _ _ _ Hi) by (simpl; rewrite Hemail; tauto).
  destruct (decide (e' = email_)) as [->|Hne].
  - unfold users.first_by_email in Hfirst. rewrite Hfirst. simpl.
    rewrite decide_True by reflexivity. reflexivity.
  - destruct (list_find _ db) as [[j y]|] eqn:Hj; [|reflexivity]. simpl.
    destruct (decide (j = i)) as [Hji|]; [|reflexivity].
    apply list_find_Some in Hj as (Hj & Hy & _).
    rewrite Hji in Hj. unfold Session in *.
    assert (y = user) as -> by congruence.
    apply String.eqb_eq in Hy. congruence.
Qed.

(** [confirmed_email] on the email of a user: afterwards
    [get_user_by_email] returns that user confirmed and otherwise as it
    was, every lookup by another email is as before, the table has as
    many rows, and confirming again changes nothing. *)
Theorem confirmed_email_confirms email_ (db : Session) user :
  repository_users.get_user_by_email (VStr email_) db = Some user ->
  exists db',
    users.confirmed_email email_ db = inr db'
    /\ repository_users.get_user_by_email (VStr email_) db'
       = Some (set_confirmed true user)
    /\ (forall e', e' <> email_ ->
          repository_users.get_user_by_email (VStr e') db'
          = repository_users.get_user_by_email (VStr e') db)
    /\ length db' = length db
    /\ users.confirmed_email email_ db' = inr db'.
Proof.
  rewrite get_user_by_email_first. unfold users.confirmed_email.
  destruct (users.first_by_email email_ db) as [[i u]|] eqn:Hfirst;
    [|discriminate].
  simpl. intros [= ->]. eexists. split; [reflexivity|].
  pose proof (find_after_assignment _ _ _ _ (set_confirmed true) email_
                Hfirst eq_refl) as Hsame.
  rewrite decide_True in Hsame by reflexivity.
  split; [exact Hsame|]. split; [|split].
  - intros e' Hne.
    rewrite (find_after_assignment _ _ _ _ (set_confirmed true) e' Hfirst eq_refl).
    rewrite decide_False by exact Hne. reflexivity.
  - apply length_insert.
  - pose proof (first_by_email_row _ _ _ _ Hfirst) as [Hi Heq].
    assert (Hfirst' : users.first_by_email email_ (<[i := set_confirmed true user]> db)
                      = Some (i, set_confirmed true user)).
    { unfold users.first_by_email in *.
      rewrite (list_find_insert_same _ _ _ _ _ Hi) by (simpl; tauto).
      rewrite Hfirst. rewrite decide_True by reflexivity. reflexivity. }
    rewrite Hfirst'. unfold Session in *.
    rewrite list_insert_insert_eq. reflexivity.
Qed.

(** [update_avatar] on the email of a user returns that user with the
    new avatar and otherwise as it was; afterwards [get_user_by_email]
    returns what it returned, every lookup by another email is as before
    and the table has as many rows. *)
Theorem update_avatar_updates email_ url (db : Session) user :
  repository_users.get_user_by_email (VStr email_) db = Some user ->
  exists db',
    users.update_avatar email_ url db = inr (set_avatar url user, db')
    /\ repository_users.get_user_by_email (VStr email_) db'
       = Some (set_avatar url user)
    /\ (forall e', e' <> email_ ->
          repository_users.get_user_by_email (VStr e') db'
          = repository_users.get_user_by_email (VStr e') db)
    /\ length db' = length db.
Proof.
  rewrite get_user_by_email_first. unfold users.update_avatar.
  destruct (users.first_by_email email_ db) as [[i u]|] eqn:Hfirst;
    [|discriminate].
  simpl. intros [= ->]. eexists. split; [reflexivity|].
  pose proof (find_after_assignment _ _ _ _ (set_avatar url) email_
                Hfirst eq_refl) as Hsame.
  rewrite decide_True in Hsame by reflexivity.
  split; [exact Hsame|]. split.
  - intros e' Hne.
    rewrite (find_after_assignment _ _ _ _ (set_avatar url) e' Hfirst eq_refl).
    rewrite decide_False by exact Hne. reflexivity.
  - apply length_insert.
Qed.

End users_properties.

(** ** Properties of the contacts repository and routes *)

Section contacts_properties.

Import repository_contacts.

Lemma get_contact_by_id_Some contact_id current_user (db : list Contact.t) c :
  get_contact_by_id contact_id current_user db = Some c <->
  exists i, first_by_id contact_id current_user db = Some (i, c).
Proof.
  unfold get_contact_by_id.
  destruct (first_by_id contact_id current_user db) as [[i x]|]; simpl.
  - split; [intros [= ->]; eauto | intros [j [= _ ->]]; reflexivity].
  - split; [discriminate | intros [j [=]]].
Qed.

Lemma get_contact_by_id_None contact_id current_user (db : list Contact.t) :
  get_contact_by_id contact_id current_user db = None <->
  forall c, c ∈ db -> Contact.id c = contact_id -> ~ owned_by current_user c.
Proof.
  unfold get_contact_by_id, first_by_id. split.
  - intros Hnone c Hin Hid Hown.
    destruct (list_find_elem_of
                (fun c => Contact.id c = contact_id /\ owned_by current_user c)
                db c Hin (conj Hid Hown)) as [[i x] Hsome].
    rewrite Hsome in Hnone. discriminate.
  - intros Hall. destruct (list_find _ db) as [[i x]|] eqn:Hfind; [|reflexivity].
    apply list_find_Some in Hfind as (Hi & [Hid Hown] & _).
    destruct (Hall x (list_elem_of_lookup_2 _ _ _ Hi) Hid Hown).
Qed.

(** Every read of the repository returns rows of the table that belong
    to the current user, and [get_contact_by_id] one with the id asked
    for. *)
Theorem contacts_reads_owned ilike limit offset contact_id query today
    current_user (db : list Contact.t) c :
  (c ∈ get_contacts limit offset current_user db ->
     c ∈ db /\ owned_by current_user c)
  /\ (get_contact_by_id contact_id current_user db = Some c ->
       c ∈ db /\ owned_by current_user c /\ Contact.id c = contact_id)
  /\ (c ∈ search_contacts ilike query current_user db ->
       c ∈ db /\ owned_by current_user c)
  /\ (c ∈ get_contacts_birthdays today current_user db ->
       c ∈ db /\ owned_by current_user c).
Proof.
  split; [|split; [|split]].
  - unfold get_contacts. intros (i & Hi & _)%elem_of_take.
    rewrite lookup_drop in Hi. apply list_elem_of_lookup_2 in Hi.
    apply list_elem_of_filter in Hi. tauto.
  - intros [i Hfind]%get_contact_by_id_Some.
    apply list_find_Some in Hfind as (Hi & [Hid Hown] & _).
    split; [exact (list_elem_of_lookup_2 _ _ _ Hi)|]. auto.
  - unfold search_contacts. intros Hin%list_elem_of_filter. tauto.
  - unfold get_contacts_birthdays. intros Hin%list_elem_of_filter. tauto.
Qed.

(** An id that is not the id of a contact of the current user, whether
    it is the id of nobody's contact or of somebody else's, gets the
    same answer: [None] from the repository, which leaves the table as
    it is, and, the id being 1 at least, 404 "Not found" from the
    routes.  An id below 1 is refused by the routes before the
    repository is asked. *)
Theorem foreign_contact_not_found body contact_id current_user (db : list Contact.t) :
  (forall c, c ∈ db -> Contact.id c = contact_id -> ~ owned_by current_user c) ->
  get_contact_by_id contact_id current_user db = None
  /\ update_contact body contact_id current_user db = (None, db)
  /\ remove_contact contact_id current_user db = (None, db)
  /\ (1 <= contact_id ->
      routes_contacts.get_contact_by_id contact_id current_user db
      = Raise (HTTPException 404 "Not found")
      /\ routes_contacts.update_contact body contact_id current_user db
         = (Raise (HTTPException 404 "Not found"), db)
      /\ routes_contacts.remove_contact contact_id current_user db
         = (Raise (HTTPException 404 "Not found"), db))
  /\ (contact_id < 1 ->
      routes_contacts.get_contact_by_id contact_id current_user db
      = Raise RequestValidationError
      /\ routes_contacts.update_contact body contact_id current_user db
         = (Raise RequestValidationError, db)
      /\ routes_contacts.remove_contact contact_id current_user db
         = (Raise RequestValidationError, db)).
Proof.
  intros Hforeign%get_contact_by_id_None.
  assert (Hfirst : first_by_id contact_id current_user db = None).
  { unfold get_contact_by_id in Hforeign.
    destruct (first_by_id contact_id current_user db); [discriminate|reflexivity]. }
  unfold routes_contacts.get_contact_by_id, routes_contacts.update_contact,
    routes_contacts.remove_contact, routes_contacts.path_ge_1,
    update_contact, remove_contact.
  rewrite Hfirst. split; [exact Hforeign|]. split; [reflexivity|].
  split; [reflexivity|]. split.
  - intros Hge. rewrite (proj2 (Z.leb_le _ _) Hge). cbn [rbind].
    rewrite Hforeign, Hfirst. repeat split.
  - intros Hlt. rewrite (proj2 (Z.leb_gt _ _) Hlt). repeat split.
Qed.

(** [update_contact] on a contact of the current user returns it with
    the fields of the body, its id and its owner kept; afterwards
    [get_contact_by_id] returns what it returned, every lookup by
    another id or for another user is as before, and the table has as
    many rows. *)
Theorem update_contact_updates body contact_id current_user (db : list Contact.t) c :
  get_contact_by_id contact_id current_user db = Some c ->
  exists db',
    update_contact body contact_id current_user db = (Some (updated body c), db')
    /\ get_contact_by_id contact_id current_user db' = Some (updated body c)
    /\ (forall contact_id' user',
          contact_id' <> contact_id \/ id user' <> id current_user ->
          get_contact_by_id contact_id' user' db'
          = get_contact_by_id contact_id' user' db)
    /\ length db' = length db.
Proof.
  intros [i Hfirst]%get_contact_by_id_Some. unfold update_contact.
  rewrite Hfirst. fold (updated body c).
  eexists. split; [reflexivity|].
  pose proof Hfirst as (Hi & [Hid Hown] & _)%list_find_Some.
  assert (Hfind : forall contact_id' user',
            first_by_id contact_id' user' (<[i := updated body c]> db)
            = match first_by_id contact_id' user' db with
              | Some (j, y) => Some (j, if decide (j = i) then updated body c else y)
              | None => None
              end).
  { intros contact_id' user'. unfold first_by_id.
    apply list_find_insert_same with (x := c); [exact Hi|].
    unfold owned_by. simpl. tauto. }
  split; [|split].
  - unfold get_contact_by_id. rewrite Hfind, Hfirst. simpl.
    rewrite decide_True by reflexivity. reflexivity.
  - intros contact_id' user' Hother. unfold get_contact_by_id. rewrite Hfind.
    destruct (first_by_id contact_id' user' db) as [[j y]|] eqn:Hj; [|reflexivity].
    simpl. destruct (decide (j = i)) as [Hji|]; [|reflexivity].
    apply list_find_Some in Hj as (Hj & [Hid' Hown'] & _).
    rewrite Hji in Hj. assert (y = c) as -> by congruence.
    unfold owned_by in *. destruct Hother; congruence.
  - apply length_insert.
Qed.

Lemma list_find_delete_other {A} (P : A -> Prop) `{forall x, Decision (P x)}
    (l : list A) i x :
  l !! i = Some x ->
  ~ P x ->
  snd <$> list_find P (delete i l) = snd <$> list_find P l.
Proof.
  revert i. induction l as [|a l IH]; intros i Hi Hx; [discriminate|].
  destruct i as [|i]; simpl in *.
  - injection Hi as ->. rewrite decide_False by exact Hx.
    destruct (list_find P l) as [[j y]|]; reflexivity.
  - destruct (decide (P a)); [reflexivity|].
    specialize (IH i Hi Hx).
    destruct (list_find P (delete i l)) as [[j y]|],
             (list_find P l) as [[j' y']|]; simpl in *; congruence.
Qed.

(** [remove_contact] on a contact of the current user returns it and
    takes one row off the table; every lookup by another id or for
    another user is as before; and where ids are unique, as those of a
    primary key are, the contact is found no more. *)
Theorem remove_contact_removes contact_id current_user (db : list Contact.t) c :
  get_contact_by_id contact_id current_user db = Some c ->
  exists db',
    remove_contact contact_id current_user db = (Some c, db')
    /\ S (length db') = length db
    /\ (forall contact_id' user',
          contact_id' <> contact_id \/ id user' <> id current_user ->
          get_contact_by_id contact_id' user' db'
          = get_contact_by_id contact_id' user' db)
    /\ (NoDup (Contact.id <$> db) ->
        get_contact_by_id contact_id current_user db' = None).
Proof.
  intros [i Hfirst]%get_contact_by_id_Some. unfold remove_contact.
  rewrite Hfirst. eexists. split; [reflexivity|].
  pose proof Hfirst as (Hi & [Hid Hown] & _)%list_find_Some.
  split; [|split].
  - rewrite length_delete by eauto.
    apply lookup_lt_Some in Hi. lia.
  - intros contact_id' user' Hother. unfold get_contact_by_id, first_by_id.
    apply list_find_delete_other with (x := c); [exact Hi|].
    unfold owned_by in *. intros [Hid' Hown']. destruct Hother; congruence.
  - intros Hnodup. apply get_contact_by_id_None. intros c2 Hin Hid2 _.
    rewrite delete_take_drop in Hin.
    rewrite <- (take_drop_middle _ _ _ Hi), fmap_app, fmap_cons in Hnodup.
    apply NoDup_app in Hnodup as (_ & Hdisj & Hright).
    apply NoDup_cons in Hright as [Hfresh _].
    apply elem_of_app in Hin as [Hin|Hin].
    + apply (Hdisj (Contact.id c2)).
      * apply list_elem_of_fmap_2. exact Hin.
      * rewrite Hid2, <- Hid. left.
    + apply Hfresh. rewrite Hid, <- Hid2.
      apply list_elem_of_fmap_2. exact Hin.
Qed.

(** [create_contact] returns a contact of the current user with the
    fields of the body.  When the id the database gives it is not the id
    of a row, [get_contact_by_id] then finds it under that id, and what
    every user found before is found as before. *)
Theorem create_contact_creates body current_user new_id (db : list Contact.t) :
  (forall c, c ∈ db -> Contact.id c <> new_id) ->
  exists c db',
    create_contact body current_user new_id db = (c, db')
    /\ owned_by current_user c
    /\ Contact.id c = new_id
    /\ get_contact_by_id new_id current_user db' = Some c
    /\ (forall contact_id' user' c',
          get_contact_by_id contact_id' user' db = Some c' ->
          get_contact_by_id contact_id' user' db' = Some c')
    /\ (forall limit user',
          id user' <> id current_user ->
          get_contacts limit 0 user' db' = get_contacts limit 0 user' db).
Proof.
  intros Hfresh. unfold create_contact. eexists _, _.
  split; [reflexivity|]. split; [reflexivity|]. split; [reflexivity|].
  split; [|split].
  - unfold get_contact_by_id, first_by_id.
    rewrite list_find_app_r.
    + simpl. rewrite decide_True by (split; reflexivity). reflexivity.
    + apply list_find_None, Forall_forall. intros c Hin [Hid _].
      exact (Hfresh c Hin Hid).
  - intros contact_id' user' c' [i Hfind]%get_contact_by_id_Some.
    unfold get_contact_by_id, first_by_id in *.
    rewrite (list_find_app_l _ _ _ _ _ Hfind). reflexivity.
  - intros limit user' Hother. unfold get_contacts.
    rewrite filter_app. simpl.
    rewrite (filter_cons_False _ _ []) by (unfold owned_by; simpl; congruence).
    rewrite filter_nil, app_nil_r. reflexivity.
Qed.

End contacts_properties.

(** ** Properties of the birthdays query *)

Section birthdays_properties.

Import repository_contacts.

Lemma days_in_month_bounds y m : 28 <= days_in_month y m <= 31.
Proof.
  unfold days_in_month.
  destruct (m =? 2); [destruct (is_leap y); lia|].
  destruct ((m =? 4) || (m =? 6) || (m =? 9) || (m =? 11))%bool; lia.
Qed.

(** [d + timedelta(days=n)] for up to four weeks: in the month of [d], or
    in the next one. *)
Lemma plus_days_closed n d :
  (n <= 28)%nat ->
  day d <= days_in_month (year d) (month d) ->
  plus_days n d
  = if day d + Z.of_nat n <=? days_in_month (year d) (month d)
    then {| year := year d; month := month d; day := day d + Z.of_nat n |}
    else {| year := year (next_month d); month := month (next_month d);
            day := day d + Z.of_nat n - days_in_month (year d) (month d) |}.
Proof.
  intros Hn Hday. induction n as [|n IH].
  - simpl. rewrite Z.add_0_r.
    rewrite (proj2 (Z.leb_le _ _) Hday). destruct d; reflexivity.
  - change (plus_days (S n) d) with (next_day (plus_days n d)).
    rewrite IH by lia. clear IH.
    pose proof (days_in_month_bounds (year d) (month d)) as Hdim.
    destruct (day d + Z.of_nat n <=? days_in_month (year d) (month d)) eqn:Hle.
    + apply Z.leb_le in Hle. unfold next_day. simpl.
      destruct (day d + Z.of_nat n <? days_in_month (year d) (month d)) eqn:Hlt.
      * apply Z.ltb_lt in Hlt.
        rewrite (proj2 (Z.leb_le _ _)) by lia. f_equal. lia.
      * apply Z.ltb_ge in Hlt.
        rewrite (proj2 (Z.leb_gt _ _)) by lia.
        unfold next_month. destruct (month d <? 12); simpl; f_equal; lia.
    + apply Z.leb_gt in Hle.
      rewrite (proj2 (Z.leb_gt _ _)) by lia.
      unfold next_day. simpl.
      pose proof (days_in_month_bounds (year (next_month d)) (month (next_month d)))
        as Hdim'.
      rewrite (proj2 (Z.ltb_lt _ _)) by lia. f_equal. lia.
Qed.

(** While the seventh day from today is in the month of today, the
    query returns the contacts of the current user that were born in
    this month, on whatever day of it: also those whose birthday has
    passed, and those whose birthday is more than seven days away. *)
Theorem birthdays_within_the_month today current_user (db : list Contact.t) :
  day today + 7 <= days_in_month (year today) (month today) ->
  get_contacts_birthdays today current_user db
  = filter (fun c => owned_by current_user c
                     /\ month (Contact.birth_date c) = month today) db.
Proof.
  intros Hmonth. unfold get_contacts_birthdays.
  rewrite (plus_days_closed 7 today) by lia.
  rewrite (proj2 (Z.leb_le _ _)) by (simpl; lia). simpl.
  apply list_filter_iff. intros c. split.
  - intros [Hown [[Hm _]|[Hm _]]]; auto.
  - intros [Hown Hm]. split; [exact Hown|].
    destruct (Z.le_gt_cases (day today) (day (Contact.birth_date c))); [left|right];
      split; auto; lia.
Qed.

(** The query misses no birthday of the coming week: a contact of the
    current user whose month and day of birth are those of today or of
    one of the seven days after it is returned. *)
Theorem birthdays_of_the_week_listed today current_user (db : list Contact.t) c n :
  day today <= days_in_month (year today) (month today) ->
  c ∈ db ->
  owned_by current_user c ->
  (n <= 7)%nat ->
  month (Contact.birth_date c) = month (plus_days n today) ->
  day (Contact.birth_date c) = day (plus_days n today) ->
  c ∈ get_contacts_birthdays today current_user db.
Proof.
  intros Hday Hin Hown Hn Hm Hd. unfold get_contacts_birthdays.
  apply list_elem_of_filter. split; [|exact Hin]. split; [exact Hown|].
  rewrite Hm, Hd.
  rewrite (plus_days_closed n today), (plus_days_closed 7 today) by (lia || exact Hday).
  destruct (day today + Z.of_nat n <=? days_in_month (year today) (month today))
    eqn:Hle.
  - left. simpl. split; [reflexivity|lia].
  - right. apply Z.leb_gt in Hle.
    rewrite (proj2 (Z.leb_gt _ _)) by lia. simpl. split; [reflexivity|lia].
Qed.

End birthdays_properties.

(** ** Concrete runs *)

#[local] Existing Instance demo_env.

Lemma claims_of_alice_json :
  map_Forall (fun _ v => jwt.json_serializable v = true) claims_of_alice.
Proof. apply map_Forall_singleton. reflexivity. Qed.

Lemma claims_of_alice_valid : valid_claim_set claims_of_alice t0.
Proof.
  split; [exact claims_of_alice_json|].
  repeat split; vm_compute; reflexivity.
Qed.

Lemma access_token_of_alice_valid :
  valid_access_token access_token_of_alice t0 "a@example.com".
Proof.
  eexists. split; [vm_compute; reflexivity|].
  split; vm_compute; reflexivity.
Qed.

(** The default issue of each kind of token for alice. *)
Example create_access_token_alice :
  create_access_token claims_of_alice None t0 = Ok access_token_of_alice.
Proof. vm_compute. reflexivity. Qed.

Example create_refresh_token_alice :
  create_refresh_token claims_of_alice None t0 = Ok refresh_token_of_alice.
Proof. vm_compute. reflexivity. Qed.

Example create_email_token_alice :
  create_email_token claims_of_alice t0 = Ok email_token_of_alice.
Proof. vm_compute. reflexivity. Qed.

(** C1 on alice: the first request with a valid token. *)
Lemma get_current_user_miss_found_alice :
  exists w',
    get_current_user access_token_of_alice [alice] t0 cold_cache
    = (Raise TypeError, w')
    /\ log w' = [RedisGet "user:a@example.com";
                 Print (Text "Get user from Postgres");
                 DbQuery (VStr "a@example.com");
                 RedisSet "user:a@example.com" (pickle_dumps alice)]
    /\ forall later,
         live (redis w') "user:a@example.com" later
         = Some {| data := pickle_dumps alice; expire_at := None |}.
Proof.
  apply (get_current_user_miss_found access_token_of_alice t0 "a@example.com"
           [alice] cold_cache alice).
  - exact access_token_of_alice_valid.
  - reflexivity.
  - reflexivity.
Defined.

(** C2 on alice: her refresh token and her email token shown to
    [get_current_user]. *)
Lemma get_current_user_wrong_scope_alice :
  get_current_user refresh_token_of_alice [alice] t0 warm_cache
  = (Raise (HTTPException 401 "Could not validate credentials"), warm_cache)
  /\ get_current_user email_token_of_alice [alice] t0 warm_cache
     = (Raise (HTTPException 401 "Could not validate credentials"), warm_cache).
Proof.
  split.
  - eapply (get_current_user_wrong_scope refresh_token_of_alice t0 _
              (VStr "refresh_token") [alice] warm_cache).
    + vm_compute. reflexivity.
    + vm_compute. reflexivity.
    + discriminate.
  - eapply (get_current_user_wrong_scope email_token_of_alice t0 _
              (VStr "email_token") [alice] warm_cache).
    + vm_compute. reflexivity.
    + vm_compute. reflexivity.
    + discriminate.
Defined.

(** C3 on a well-signed access token without a subject. *)
Lemma get_current_user_missing_sub_run :
  get_current_user token_without_sub [alice] t0 cold_cache
  = (Raise (KeyError "sub"), cold_cache).
Proof.
  eapply (get_current_user_missing_sub token_without_sub t0 _ [alice] cold_cache).
  - vm_compute. reflexivity.
  - vm_compute. reflexivity.
  - vm_compute. reflexivity.
Defined.

(** C10 on a well-signed, unexpired token without a scope. *)
Lemma missing_scope_KeyError_run :
  get_current_user token_without_scope [alice] t0 cold_cache
  = (Raise (KeyError "scope"), cold_cache)
  /\ decode_refresh_token token_without_scope t0 = Raise (KeyError "scope")
  /\ get_email_from_token token_without_scope t0 cold_cache
     = (Raise (KeyError "scope"), cold_cache).
Proof.
  eapply (missing_scope_KeyError token_without_scope t0 _ [alice] cold_cache).
  - vm_compute. reflexivity.
  - vm_compute. reflexivity.
Defined.

(** C5 on alice's token when the store has no row for her. *)
Lemma get_current_user_unknown_user_run :
  get_current_user access_token_of_alice [] t0 cold_cache
  = (Raise (HTTPException 401 "Could not validate credentials"),
     {| redis := ∅;
        log := [RedisGet "user:a@example.com";
                Print (Text "Get user from Postgres");
                DbQuery (VStr "a@example.com")] |}).
Proof.
  apply (get_current_user_unknown_user access_token_of_alice t0 "a@example.com"
           [] cold_cache).
  - exact access_token_of_alice_valid.
  - reflexivity.
  - reflexivity.
Defined.

(** C6 on alice: her row has changed since the snapshot was taken, and
    the snapshot is what is returned. *)
Lemma get_current_user_cache_hit_alice :
  get_current_user access_token_of_alice [alice_later] t0 warm_cache
  = (Ok alice,
     {| redis := redis warm_cache;
        log := [RedisGet "user:a@example.com";
                Print (Text "Get user from Cache")] |})
  /\ get_current_user access_token_of_alice [] t0 warm_cache
     = get_current_user access_token_of_alice [alice_later] t0 warm_cache.
Proof.
  destruct (get_current_user_cache_hit access_token_of_alice t0 "a@example.com"
              [alice_later] warm_cache
              {| data := pickle_dumps alice; expire_at := None |}
              access_token_of_alice_valid eq_refl) as (Hrun & Hdb & _).
  split; [exact Hrun | exact (Hdb [])].
Defined.

(** A minute and an hour from [t0] are instants of [datetime]; 10^12
    seconds from it are not. *)
Lemma representable_60 : representable t0 60.
Proof. repeat split; vm_compute; discriminate. Qed.

Lemma representable_3600 : representable t0 3600.
Proof. repeat split; vm_compute; discriminate. Qed.

Lemma not_representable_10_12 : ~ representable t0 1000000000000.
Proof. intros [_ [_ Hmax]]. vm_compute in Hmax. apply Hmax. reflexivity. Qed.

(** C7 on alice's claims, with a lifetime of a minute. *)
Lemma access_token_round_trip_alice :
  exists token payload,
    create_access_token claims_of_alice (Some 60) t0 = Ok token
    /\ jwt.decode token SECRET_KEY [ALGORITHM] t0 = Ok payload
    /\ payload !! "sub" = Some (VStr "a@example.com")
    /\ payload !! "scope" = Some (VStr "access_token").
Proof.
  apply (access_token_round_trip claims_of_alice "a@example.com" (Some 60) t0).
  - exact claims_of_alice_valid.
  - reflexivity.
  - intros seconds [= <-]. split; [lia | exact representable_60].
Defined.

(** C8 on alice's claims, at 1700000000 seconds and a quarter: the
    defaults, a minute, an hour, and 10^12 seconds, which leave the range
    of [datetime]. *)
Lemma issuers_embed_claims_alice :
  issues claims_of_alice (create_access_token claims_of_alice None t0)
         1700000000 1700000900 "access_token"
  /\ issues claims_of_alice (create_access_token claims_of_alice (Some 60) t0)
            1700000000 1700000060 "access_token"
  /\ create_access_token claims_of_alice (Some 1000000000000) t0
     = Raise OverflowError
  /\ issues claims_of_alice (create_refresh_token claims_of_alice None t0)
            1700000000 1700604800 "refresh_token"
  /\ issues claims_of_alice (create_refresh_token claims_of_alice (Some 3600) t0)
            1700000000 1700003600 "refresh_token"
  /\ create_refresh_token claims_of_alice (Some 1000000000000) t0
     = Raise OverflowError
  /\ issues claims_of_alice (create_email_token claims_of_alice t0)
            1700000000 1700086400 "email_token".
Proof.
  destruct (issuers_embed_claims claims_of_alice t0 claims_of_alice_json)
    as (Ha & Ha' & Hr & Hr' & He).
  split; [exact Ha|].
  split; [exact (proj1 (Ha' 60 ltac:(discriminate)) representable_60)|].
  split; [exact (proj2 (Ha' 1000000000000 ltac:(discriminate))
                   not_representable_10_12)|].
  split; [exact Hr|].
  split; [exact (proj1 (Hr' 3600 ltac:(discriminate)) representable_3600)|].
  split; [exact (proj2 (Hr' 1000000000000 ltac:(discriminate))
                   not_representable_10_12)|].
  exact He.
Defined.

(** C8: with an [expires_delta] of zero the expiry is not [now + 0] but
    900 seconds later; with one of 10^12 seconds no token is issued. *)
Lemma zero_ttl_is_not_the_lifetime :
  (exists payload signature,
     create_access_token claims_of_alice (Some 0) t0
     = Ok (jwt.Jws "HS256" payload signature)
     /\ payload !! "exp" = Some (VInt (timegm t0 + 900))
     /\ payload !! "exp" <> Some (VInt (timegm t0 + 0)))
  /\ create_access_token claims_of_alice (Some 1000000000000) t0
     = Raise OverflowError.
Proof.
  split; [|vm_compute; reflexivity].
  eexists _, _. split; [vm_compute; reflexivity|].
  split; [vm_compute; reflexivity|]. vm_compute. discriminate.
Qed.

(** C7: the token issued for alice's claims with an audience is refused
    at the instant of issue, by [jwt.decode] and so by
    [get_current_user]. *)
Lemma audience_claim_breaks_round_trip :
  exists token,
    create_access_token claims_with_audience None t0 = Ok token
    /\ jwt.decode token SECRET_KEY [ALGORITHM] t0 = Raise (JWTError JWTClaimsError)
    /\ get_current_user token [alice] t0 warm_cache
       = (Raise (HTTPException 401 "Could not validate credentials"), warm_cache).
Proof.
  eexists. split; [vm_compute; reflexivity|].
  split; vm_compute; reflexivity.
Qed.



(** C9: alice's access token shown to [get_email_from_token] gets the
    401 "Invalid scope for token", which is not the 422. *)
Lemma get_email_from_token_wrong_scope :
  get_email_from_token access_token_of_alice t0 cold_cache
  = (Raise (HTTPException 401 "Invalid scope for token"), cold_cache)
  /\ HTTPException 401 "Invalid scope for token"
     <> HTTPException 422 "Invalid token for email verification".
Proof. split; [vm_compute; reflexivity | discriminate]. Qed.

(** C9 on a malformed string, on alice's refresh token and on her email
    token. *)
Lemma get_email_from_token_outcomes_run :
  get_email_from_token (jwt.Malformed "not.a.token") t0 cold_cache
  = (Raise (HTTPException 422 "Invalid token for email verification"),
     {| redis := ∅; log := [Print (Exc (JWTError JWSError))] |})
  /\ get_email_from_token refresh_token_of_alice t0 cold_cache
     = (Raise (HTTPException 401 "Invalid scope for token"), cold_cache)
  /\ get_email_from_token email_token_of_alice t0 cold_cache
     = (Ok (VStr "a@example.com"), cold_cache).
Proof.
  split; [|split].
  - apply (proj1 (get_email_from_token_outcomes (jwt.Malformed "not.a.token")
                    t0 cold_cache) JWSError).
    reflexivity.
  - eapply (proj1 (proj2 (get_email_from_token_outcomes refresh_token_of_alice
                            t0 cold_cache)) _ (VStr "refresh_token")).
    + vm_compute. reflexivity.
    + vm_compute. reflexivity.
    + discriminate.
  - refine (proj1 (proj2 (proj2 (get_email_from_token_outcomes email_token_of_alice
                                   t0 cold_cache)) _ (VStr "a@example.com") _ _ _)).
    + vm_compute. reflexivity.
    + vm_compute. reflexivity.
    + vm_compute. reflexivity.
Defined.

(** Staleness on alice: the request after the first one, five minutes
    later and after her row has changed, returns the first snapshot. *)
Lemma snapshot_outlives_mutation_alice :
  fst (get_current_user access_token_of_alice [alice_later] (t0 + 300 * 1000000)
         (snd (get_current_user access_token_of_alice [alice] t0 cold_cache)))
  = Ok alice.
Proof.
  apply (snapshot_outlives_mutation access_token_of_alice t0 (t0 + 300 * 1000000)
           "a@example.com" [alice] [alice_later] cold_cache alice).
  - exact access_token_of_alice_valid.
  - eexists. split; [vm_compute; reflexivity|].
    split; vm_compute; reflexivity.
  - reflexivity.
  - reflexivity.
  - reflexivity.
Defined.

(** *** Runs of the further properties *)

Lemma tokens_are_not_interchangeable_alice :
  ((exists e, decode_refresh_token access_token_of_alice t0 = Raise e)
   /\ (exists e w', get_email_from_token access_token_of_alice t0 cold_cache
                    = (Raise e, w')
                    /\ redis w' = redis cold_cache))
  /\ ((exists e, get_current_user refresh_token_of_alice [alice] t0 warm_cache
                 = (Raise e, warm_cache))
      /\ (exists e w', get_email_from_token refresh_token_of_alice t0 warm_cache
                       = (Raise e, w')
                       /\ redis w' = redis warm_cache))
  /\ ((exists e, get_current_user email_token_of_alice [alice] t0 warm_cache
                 = (Raise e, warm_cache))
      /\ (exists e, decode_refresh_token email_token_of_alice t0 = Raise e)).
Proof.
  split; [|split].
  - exact (proj1 (tokens_are_not_interchangeable claims_of_alice None t0
                    access_token_of_alice t0 [alice] cold_cache)
             create_access_token_alice).
  - exact (proj1 (proj2 (tokens_are_not_interchangeable claims_of_alice None t0
                           refresh_token_of_alice t0 [alice] warm_cache))
             create_refresh_token_alice).
  - exact (proj2 (proj2 (tokens_are_not_interchangeable claims_of_alice None t0
                           email_token_of_alice t0 [alice] warm_cache))
             create_email_token_alice).
Defined.

(** Six days after the issue. *)
Lemma refresh_token_round_trip_alice :
  exists token,
    create_refresh_token claims_of_alice None t0 = Ok token
    /\ decode_refresh_token token (t0 + 6 * 86400 * 1000000)
       = Ok (VStr "a@example.com").
Proof.
  apply (refresh_token_round_trip claims_of_alice "a@example.com" t0
           (t0 + 6 * 86400 * 1000000)).
  - split; [exact claims_of_alice_json|]. repeat split; vm_compute; reflexivity.
  - reflexivity.
  - vm_compute. discriminate.
Defined.

(** Twenty hours after the issue. *)
Lemma email_token_round_trip_alice :
  exists token,
    create_email_token claims_of_alice t0 = Ok token
    /\ get_email_from_token token (t0 + 20 * 3600 * 1000000) cold_cache
       = (Ok (VStr "a@example.com"), cold_cache).
Proof.
  apply (email_token_round_trip claims_of_alice "a@example.com" t0
           (t0 + 20 * 3600 * 1000000) cold_cache).
  - split; [exact claims_of_alice_json|]. repeat split; vm_compute; reflexivity.
  - reflexivity.
  - vm_compute. discriminate.
Defined.

Lemma access_token_lifetime_alice :
  exists token,
    create_access_token claims_of_alice None t0 = Ok token
    /\ (forall now',
          valid_claim_set claims_of_alice now' ->
          timegm now' <= timegm t0 + 900 ->
          valid_access_token token now' "a@example.com")
    /\ (forall now' db w,
          timegm t0 + 900 < timegm now' ->
          exists e, get_current_user token db now' w = (Raise e, w)).
Proof.
  apply (access_token_lifetime claims_of_alice "a@example.com" t0).
  - exact claims_of_alice_json.
  - reflexivity.
Defined.

(** A string that is no token, and alice's claims signed with a guessed
    key. *)
Lemma unsigned_tokens_rejected_run :
  (get_current_user (jwt.Malformed "not.a.token") [alice] t0 warm_cache
   = (Raise (HTTPException 401 "Could not validate credentials"), warm_cache)
   /\ decode_refresh_token (jwt.Malformed "not.a.token") t0
      = Raise (HTTPException 401 "Could not validate credentials")
   /\ get_email_from_token (jwt.Malformed "not.a.token") t0 warm_cache
      = (Raise (HTTPException 422 "Invalid token for email verification"),
         {| redis := redis warm_cache;
            log := [Print (Exc (JWTError JWSError))] |}))
  /\ (get_current_user forged_token [alice] t0 warm_cache
      = (Raise (HTTPException 401 "Could not validate credentials"), warm_cache)
      /\ decode_refresh_token forged_token t0
         = Raise (HTTPException 401 "Could not validate credentials")
      /\ get_email_from_token forged_token t0 warm_cache
         = (Raise (HTTPException 422 "Invalid token for email verification"),
            {| redis := redis warm_cache;
               log := [Print (Exc (JWTError JWSError))] |})).
Proof.
  split.
  - apply (unsigned_tokens_rejected (jwt.Malformed "not.a.token") t0 [alice]
             warm_cache).
    exact I.
  - apply (unsigned_tokens_rejected forged_token t0 [alice] warm_cache).
    right. vm_compute. discriminate.
Defined.

Lemma decode_refresh_token_outcomes_run :
  decode_refresh_token expired_token t0
  = Raise (HTTPException 401 "Could not validate credentials")
  /\ decode_refresh_token access_token_of_alice t0
     = Raise (HTTPException 401 "Invalid scope for token")
  /\ decode_refresh_token refresh_token_of_alice t0 = Ok (VStr "a@example.com").
Proof.
  split; [|split].
  - apply (proj1 (decode_refresh_token_outcomes expired_token t0)
             ExpiredSignatureError).
    vm_compute. reflexivity.
  - eapply (proj1 (proj2 (decode_refresh_token_outcomes access_token_of_alice t0))
              _ (VStr "access_token")).
    + vm_compute. reflexivity.
    + vm_compute. reflexivity.
    + discriminate.
  - refine (proj1 (proj2 (proj2 (proj2 (decode_refresh_token_outcomes
                                          refresh_token_of_alice t0)))
                     _ (VStr "a@example.com") _ _ _)).
    + vm_compute. reflexivity.
    + vm_compute. reflexivity.
    + vm_compute. reflexivity.
Defined.

Lemma get_current_user_returns_cached_alice :
  exists email_ ent,
    valid_access_token access_token_of_alice t0 email_
    /\ live (redis warm_cache) (cache_key email_) t0 = Some ent
    /\ pickle_loads (data ent) = Some alice
    /\ redis {| redis := redis warm_cache;
                log := [RedisGet "user:a@example.com";
                        Print (Text "Get user from Cache")] |}
       = redis warm_cache.
Proof.
  apply (get_current_user_returns_cached access_token_of_alice [alice_later] t0
           warm_cache alice).
  vm_compute. reflexivity.
Defined.

Lemma warm_cache_sound : cache_sound (redis warm_cache).
Proof.
  intros e ent u Hlook Hloads. unfold warm_cache in Hlook. simpl in Hlook.
  apply lookup_singleton_Some in Hlook as [Hkey <-].
  simpl in Hloads. injection Hloads as <-.
  change "user:a@example.com" with (cache_key "a@example.com") in Hkey.
  apply cache_key_inj in Hkey. subst e. reflexivity.
Qed.

Lemma cached_users_match_their_key_alice :
  cache_sound (redis (snd (get_current_user access_token_of_alice [alice_later] t0
                             warm_cache)))
  /\ forall user,
       fst (get_current_user access_token_of_alice [alice_later] t0 warm_cache)
       = Ok user ->
       exists email_,
         valid_access_token access_token_of_alice t0 email_
         /\ email user = email_.
Proof.
  apply (cached_users_match_their_key access_token_of_alice [alice_later] t0
           warm_cache).
  - intros user. reflexivity.
  - exact warm_cache_sound.
Defined.

Lemma mutators_unknown_email_run :
  users.confirmed_email "nobody@example.com" users_table
  = inl (AttributeError "NoneType" "confirmed")
  /\ users.update_avatar "nobody@example.com"
       (Some "https://example.com/avatar.jpg") users_table
     = inl (AttributeError "NoneType" "avatar").
Proof.
  apply (mutators_unknown_email "nobody@example.com"
           (Some "https://example.com/avatar.jpg") users_table).
  reflexivity.
Defined.

Lemma confirmed_email_confirms_alice :
  exists db',
    users.confirmed_email "a@example.com" users_table = inr db'
    /\ repository_users.get_user_by_email (VStr "a@example.com") db'
       = Some (set_confirmed true alice)
    /\ (forall e', e' <> "a@example.com" ->
          repository_users.get_user_by_email (VStr e') db'
          = repository_users.get_user_by_email (VStr e') users_table)
    /\ length db' = length users_table
    /\ users.confirmed_email "a@example.com" db' = inr db'.
Proof.
  apply (confirmed_email_confirms "a@example.com" users_table alice).
  reflexivity.
Defined.

Lemma update_avatar_updates_alice :
  exists db',
    users.update_avatar "a@example.com" (Some "https://example.com/avatar.jpg")
      users_table
    = inr (set_avatar (Some "https://example.com/avatar.jpg") alice, db')
    /\ repository_users.get_user_by_email (VStr "a@example.com") db'
       = Some (set_avatar (Some "https://example.com/avatar.jpg") alice)
    /\ (forall e', e' <> "a@example.com" ->
          repository_users.get_user_by_email (VStr e') db'
          = repository_users.get_user_by_email (VStr e') users_table)
    /\ length db' = length users_table.
Proof.
  apply (update_avatar_updates "a@example.com"
           (Some "https://example.com/avatar.jpg") users_table alice).
  reflexivity.
Defined.

Lemma contacts_table_ids c :
  c ∈ contacts_table -> c = carol \/ c = dave \/ c = erin.
Proof.
  unfold contacts_table. rewrite !elem_of_cons, elem_of_nil. tauto.
Qed.

(** Alice asks for the contact of bob, for a contact nobody has, and for
    the contact 0. *)
Lemma foreign_contact_not_found_run :
  (repository_contacts.get_contact_by_id 3 alice contacts_table = None
   /\ repository_contacts.update_contact john_doe 3 alice contacts_table
      = (None, contacts_table)
   /\ repository_contacts.remove_contact 3 alice contacts_table
      = (None, contacts_table)
   /\ routes_contacts.get_contact_by_id 3 alice contacts_table
      = Raise (HTTPException 404 "Not found")
   /\ routes_contacts.update_contact john_doe 3 alice contacts_table
      = (Raise (HTTPException 404 "Not found"), contacts_table)
   /\ routes_contacts.remove_contact 3 alice contacts_table
      = (Raise (HTTPException 404 "Not found"), contacts_table))
  /\ routes_contacts.get_contact_by_id 99 alice contacts_table
     = Raise (HTTPException 404 "Not found")
  /\ (routes_contacts.get_contact_by_id 0 alice contacts_table
      = Raise RequestValidationError
      /\ routes_contacts.update_contact john_doe 0 alice contacts_table
         = (Raise RequestValidationError, contacts_table)
      /\ routes_contacts.remove_contact 0 alice contacts_table
         = (Raise RequestValidationError, contacts_table)).
Proof.
  assert (Hforeign : forall contact_id, contact_id = 3 \/ contact_id = 99
                                        \/ contact_id = 0 ->
            forall c, c ∈ contacts_table -> Contact.id c = contact_id ->
                      ~ repository_contacts.owned_by alice c).
  { intros contact_id Hid c [-> | [-> | ->]]%contacts_table_ids;
      vm_compute; intros; destruct Hid as [-> | [-> | ->]]; congruence. }
  destruct (foreign_contact_not_found john_doe 3 alice contacts_table
              (Hforeign 3 ltac:(auto))) as (H1 & H2 & H3 & H4 & _).
  destruct (H4 ltac:(lia)) as (H5 & H6 & H7).
  destruct (foreign_contact_not_found john_doe 99 alice contacts_table
              (Hforeign 99 ltac:(auto))) as (_ & _ & _ & H8 & _).
  destruct (foreign_contact_not_found john_doe 0 alice contacts_table
              (Hforeign 0 ltac:(auto))) as (_ & _ & _ & _ & H9).
  split; [auto 10|]. split; [exact (proj1 (H8 ltac:(lia)))|].
  exact (H9 ltac:(lia)).
Defined.

Lemma update_contact_updates_run :
  exists db',
    repository_contacts.update_contact john_doe 1 alice contacts_table
    = (Some (updated john_doe carol), db')
    /\ repository_contacts.get_contact_by_id 1 alice db'
       = Some (updated john_doe carol)
    /\ (forall contact_id' user',
          contact_id' <> 1 \/ id user' <> id alice ->
          repository_contacts.get_contact_by_id contact_id' user' db'
          = repository_contacts.get_contact_by_id contact_id' user' contacts_table)
    /\ length db' = length contacts_table.
Proof.
  apply (update_contact_updates john_doe 1 alice contacts_table carol).
  reflexivity.
Defined.

Lemma remove_contact_removes_run :
  exists db',
    repository_contacts.remove_contact 2 alice contacts_table = (Some dave, db')
    /\ S (length db') = length contacts_table
    /\ (forall contact_id' user',
          contact_id' <> 2 \/ id user' <> id alice ->
          repository_contacts.get_contact_by_id contact_id' user' db'
          = repository_contacts.get_contact_by_id contact_id' user' contacts_table)
    /\ (NoDup (Contact.id <$> contacts_table) ->
        repository_contacts.get_contact_by_id 2 alice db' = None).
Proof.
  apply (remove_contact_removes 2 alice contacts_table dave).
  reflexivity.
Defined.

Lemma create_contact_creates_run :
  exists c db',
    repository_contacts.create_contact john_doe bob 4 contacts_table = (c, db')
    /\ repository_contacts.owned_by bob c
    /\ Contact.id c = 4
    /\ repository_contacts.get_contact_by_id 4 bob db' = Some c
    /\ (forall contact_id' user' c',
          repository_contacts.get_contact_by_id contact_id' user' contacts_table
          = Some c' ->
          repository_contacts.get_contact_by_id contact_id' user' db' = Some c')
    /\ (forall limit user',
          id user' <> id bob ->
          repository_contacts.get_contacts limit 0 user' db'
          = repository_contacts.get_contacts limit 0 user' contacts_table).
Proof.
  apply (create_contact_creates john_doe bob 4 contacts_table).
  intros c [-> | [-> | ->]]%contacts_table_ids; vm_compute; congruence.
Defined.

(** On 3 March alice is shown carol, whose birthday was on the 1st, and
    dave, whose birthday is on the 28th. *)
Lemma birthdays_within_the_month_run :
  repository_contacts.get_contacts_birthdays march_3 alice contacts_table
  = filter (fun c => repository_contacts.owned_by alice c
                     /\ month (Contact.birth_date c) = month march_3)
      contacts_table
  /\ repository_contacts.get_contacts_birthdays march_3 alice contacts_table
     = [carol; dave].
Proof.
  split.
  - apply (birthdays_within_the_month march_3 alice contacts_table).
    vm_compute. discriminate.
  - vm_compute. reflexivity.
Defined.

(** On 28 March bob is shown erin, whose birthday is on 2 April, five
    days later. *)
Lemma birthdays_of_the_week_listed_run :
  erin ∈ repository_contacts.get_contacts_birthdays march_28 bob contacts_table.
Proof.
  apply (birthdays_of_the_week_listed march_28 bob contacts_table erin 5).
  - vm_compute. discriminate.
  - unfold contacts_table. rewrite !elem_of_cons. tauto.
  - reflexivity.
  - lia.
  - reflexivity.
  - reflexivity.
Defined.
